(** * l5kit: reward strategies, error functions and metric aggregation

    A shallow embedding of
      - [l5kit/evaluation/error_functions.py]  ([closest_angle], [l2_error]),
      - [l5kit/environment/reward.py]          ([CLE_Reward], [OLE_Reward]),
      - [l5kit/environment/cle_utils.py]       ([aggregate_cle_metrics]),
      - [l5kit/visualization/visualiser.py]    ([get_frame_data],
                                                [get_frame_trajectories]).

    Numeric convention.  Python floats and the elements of torch / numpy
    arrays are idealised as real numbers ([R]): rounding, overflow and
    non-finite inputs are outside this development.  The one non-finite
    value the sources make out of finite data, the mean of an array
    without elements, is kept ([NaN]).  Array-valued data is a shape
    together with its elements in row-major order. *)

From Stdlib Require Import Reals Lra Lia ZArith List.
From stdpp Require Import base option list gmap strings.

Local Open Scope R_scope.

(** ** Tensors *)

(** A torch tensor / numpy array: its shape and its elements, row-major. *)
Record Tensor : Type := mkTensor {
  shape : list nat;
  data : list R
}.

(** Elementwise unary and binary operations.  The binary one is only used
    on operands of one shape (the callers check or require it). *)
Definition tmap (f : R -> R) (t : Tensor) : Tensor :=
  mkTensor (shape t) (List.map f (data t)).

Fixpoint map2 (f : R -> R -> R) (xs ys : list R) : list R :=
  match xs, ys with
  | x :: xs', y :: ys' => f x y :: map2 f xs' ys'
  | _, _ => []
  end.

Definition tmap2 (f : R -> R -> R) (a b : Tensor) : Tensor :=
  mkTensor (shape a) (map2 f (data a) (data b)).

(** ** Exceptions and the store-passing monad *)

(** The key of a failed dictionary lookup. *)
Inductive pykey : Type :=
  | KStr (s : string)
  | KInt (z : Z).

Inductive exn : Type :=
  | AssertionError
  | KeyError (key : pykey)
  | IndexError
  | TypeError
  | RuntimeError
  | ValueError
  | UnboundLocalError
  | External (what : string).  (* any other exception of a collaborator *)

Inductive result (A : Type) : Type :=
  | Ok (a : A)
  | Raise (e : exn).
Arguments Ok {A} a.
Arguments Raise {A} e.

(** A Python computation over a store [S]: it returns or raises, and in
    both cases leaves a store behind (what was written before an exception
    stays written). *)
Definition Py (S A : Type) : Type := S -> result A * S.

Definition py_ret {S A} (a : A) : Py S A := fun s => (Ok a, s).

Definition py_bind {S A B} (m : Py S A) (k : A -> Py S B) : Py S B :=
  fun s => match m s with
           | (Ok a, s') => k a s'
           | (Raise e, s') => (Raise e, s')
           end.

Definition py_raise {S A} (e : exn) : Py S A := fun s => (Raise e, s).

Definition py_gets {S A} (f : S -> A) : Py S A := fun s => (Ok (f s), s).

Definition py_modify {S} (f : S -> S) : Py S unit := fun s => (Ok tt, f s).

(** A pure step that may raise. *)
Definition py_lift {S A} (r : result A) : Py S A := fun s => (r, s).

(** [assert c] *)
Definition py_assert {S} (c : bool) : Py S unit :=
  if c then py_ret tt else py_raise AssertionError.

(** [keeps f m]: whatever [m] does, returning or raising, the part [f]
    of the store is afterwards what it was before. *)
Definition keeps {S X A} (f : S -> X) (m : Py S A) : Prop :=
  forall st, f (snd (m st)) = f st.

(** The monad is used through stdpp's notations [x ← m; k] and [m;; k]. *)
#[global] Instance Py_ret {S} : MRet (Py S) := fun A => @py_ret S A.
#[global] Instance Py_bind {S} : MBind (Py S) :=
  fun A B k m => @py_bind S A B m k.

(** [d[k]] on a plain [dict] with string keys. *)
Definition dict_getitem {V} (d : gmap string V) (k : string) : result V :=
  match d !! k with
  | Some v => Ok v
  | None => Raise (KeyError (KStr k))
  end.

(** [d[k]] on a plain [dict] with integer keys. *)
Definition dict_getitem_int {V} (d : gmap Z V) (k : Z) : result V :=
  match d !! k with
  | Some v => Ok v
  | None => Raise (KeyError (KInt k))
  end.

(** ** Tensor indexing and scalar extraction *)

Definition numel (dims : list nat) : nat := fold_right Nat.mul 1%nat dims.

(** [t[i]] with an integer [i]: selects along the first dimension; a
    negative [i] counts from the end; a 0-d tensor cannot be indexed. *)
Definition tensor_getitem (t : Tensor) (i : Z) : result Tensor :=
  match shape t with
  | [] => Raise IndexError
  | d :: rest =>
      let n := Z.of_nat d in
      let j := if decide (i < 0)%Z then (i + n)%Z else i in
      if decide (0 <= j < n)%Z then
        let k := numel rest in
        Ok (mkTensor rest (take k (drop (Z.to_nat j * k) (data t))))
      else Raise IndexError
  end.

(** [t.item()]: the value of a tensor of exactly one element. *)
Definition item (t : Tensor) : result R :=
  match data t with
  | [x] => Ok x
  | _ => Raise RuntimeError
  end.

(** ** error_functions.py *)

Module ErrorFunctions.

(** Truncation towards zero, the integer quotient C's [fmod] removes. *)
Definition Ztrunc (x : R) : Z :=
  if Rle_dec 0 x then Zfloor x else Zceil x.

(** [torch.fmod(x, y)]: the remainder of the division truncated towards
    zero; it carries the sign of the dividend [x]. *)
Definition fmod (x y : R) : R := x - y * IZR (Ztrunc (x / y)).

Definition two_pi : R := 2.0 * PI.

(** The scalar body of [closest_angle], applied elementwise. *)
Definition closest_angle1 (angle_a angle_b : R) : R :=
  let wrapped := fmod (angle_b - angle_a) two_pi in
  fmod (2.0 * wrapped) two_pi - wrapped.

Definition closest_angle (angle_a angle_b : Tensor) : result Tensor :=
  if decide (shape angle_a = shape angle_b) then
    Ok (tmap2 closest_angle1 angle_a angle_b)
  else Raise AssertionError.

End ErrorFunctions.

(** ** numpy arithmetic used by the open-loop reward *)

(** A Python float as the reward functions return it.  [NaN] is kept as a
    value because one operation of the sources produces it from finite
    data: the mean of an array without elements. *)
Inductive pyfloat : Type :=
  | Float (r : R)
  | NaN.

Definition float_neg (x : pyfloat) : pyfloat :=
  match x with
  | Float r => Float (- r)
  | NaN => NaN
  end.

(** Python's [max(a, b)]: the first argument unless the second is greater. *)
Definition py_max (a b : R) : R := if Rlt_dec a b then b else a.

Definition Rsum (xs : list R) : R := fold_right Rplus 0 xs.

(** [a.mean()] over all elements; numpy gives nan for an empty array. *)
Definition np_mean (a : Tensor) : pyfloat :=
  match data a with
  | [] => NaN
  | _ :: _ => Float (Rsum (data a) / INR (length (data a)))
  end.

Definition np_square (a : Tensor) : Tensor := tmap (fun x => x * x) a.

(** Broadcasting.  Shapes are aligned at their last dimension; two
    dimensions are compatible when equal or when one of them is 1. *)
Definition broadcast_dim (x y : nat) : option nat :=
  if decide (x = y) then Some x
  else if decide (x = 1%nat) then Some y
  else if decide (y = 1%nat) then Some x
  else None.

(** On shapes listed from the last dimension to the first. *)
Fixpoint broadcast_shapes_rev (a b : list nat) : option (list nat) :=
  match a, b with
  | [], _ => Some b
  | _, [] => Some a
  | x :: a', y :: b' =>
      match broadcast_dim x y, broadcast_shapes_rev a' b' with
      | Some d, Some r => Some (d :: r)
      | _, _ => None
      end
  end.

Definition broadcast_shapes (a b : list nat) : option (list nat) :=
  option_map (@rev nat) (broadcast_shapes_rev (rev a) (rev b)).

(** [n] consecutive blocks of [k] elements. *)
Fixpoint chunks (k n : nat) (xs : list R) : list (list R) :=
  match n with
  | O => []
  | S n' => take k xs :: chunks k n' (drop k xs)
  end.

(** The elements of an array of shape [s] laid out at shape [t], where
    [s] and [t] have one rank and each dimension of [s] equals that of [t]
    or is 1. *)
Fixpoint expand (s t : list nat) (xs : list R) : list R :=
  match s, t with
  | d :: s', e :: t' =>
      if decide (d = e) then
        concat (List.map (expand s' t') (chunks (numel s') d xs))
      else concat (replicate e (expand s' t' xs))
  | _, _ => xs
  end.

Definition broadcast_to (a : Tensor) (t : list nat) : Tensor :=
  let s := replicate (length t - length (shape a)) 1%nat ++ shape a in
  mkTensor t (expand s t (data a)).

(** [a - b] on arrays: elementwise after broadcasting both operands to
    their common shape, [ValueError] when there is none. *)
Definition np_sub (a b : Tensor) : result Tensor :=
  match broadcast_shapes (shape a) (shape b) with
  | Some t => Ok (tmap2 Rminus (broadcast_to a t) (broadcast_to b t))
  | None => Raise ValueError
  end.

(** ** reward.py *)

Section RewardInput.
Context {SimulationDataset UnrollInputOutput : Type}.

(** [class RewardInput(NamedTuple)] *)
Record RewardInput : Type := mkRewardInput {
  frame_index : Z;
  scene_indices : list Z;
  sim_dataset : SimulationDataset;
  ego_ins_outs : gmap Z (list UnrollInputOutput);
  agents_ins_outs : gmap Z (list (list UnrollInputOutput));
  ego_output_dict : gmap string Tensor;
  ego_input_dict : gmap string Tensor
}.

(** Modelled from the spec: [SimulationOutputCLE] is declared in
    l5kit/environment/cle_metricset.py, which is not among the sources.
    The spec has the reward "wrap the step's simulation state into a
    per-scene evaluation record"; the record keeps the four constructor
    arguments. *)
Record SimulationOutputCLE : Type := mkSimulationOutputCLE {
  so_scene_id : Z;
  so_sim_dataset : SimulationDataset;
  so_ego_ins_outs : gmap Z (list UnrollInputOutput);
  so_agents_ins_outs : gmap Z (list (list UnrollInputOutput))
}.

(** The objects a call of [get_reward] can see: the receiver and the
    object its parameter refers to. *)
Record Store (Self : Type) : Type := mkStore {
  st_self : Self;
  st_input : RewardInput
}.
End RewardInput.

Arguments RewardInput : clear implicits.
Arguments SimulationOutputCLE : clear implicits.
Arguments Store : clear implicits.
Arguments mkStore {SimulationDataset UnrollInputOutput Self} _ _.
Arguments st_self {SimulationDataset UnrollInputOutput Self} _.
Arguments st_input {SimulationDataset UnrollInputOutput Self} _.

(** [class Reward(ABC)]: the two abstract methods. *)
Class Reward (SimulationDataset UnrollInputOutput Self : Type) := {
  reward_reset : Py Self unit;
  reward_get_reward :
    Py (Store SimulationDataset UnrollInputOutput Self) pyfloat
}.

(** The metric-evaluation strategy ([L5MetricSet], declared in
    cle_metricset.py) as [CLE_Reward] uses it: [reset], [evaluate], and the
    read-back [evaluator.scene_metric_results] (scene id, then metric
    name, then the time series).  Both methods act on the metric set's own
    state and may raise. *)
Class L5MetricSet (SimulationDataset UnrollInputOutput M : Type) := {
  ms_reset : Py M unit;
  ms_evaluate :
    list (SimulationOutputCLE SimulationDataset UnrollInputOutput) -> Py M unit;
  ms_scene_metric_results : M -> gmap Z (gmap string Tensor)
}.

(** The read-back interface of the spec,
    [scene_metric_results[scene][name][index]], and the scalar it holds. *)
Definition metric_entry (results : gmap Z (gmap string Tensor))
    (scene : Z) (name : string) (index : Z) : result Tensor :=
  match dict_getitem_int results scene with
  | Ok scene_metrics =>
      match dict_getitem scene_metrics name with
      | Ok series => tensor_getitem series index
      | Raise e => Raise e
      end
  | Raise e => Raise e
  end.

Definition metric_value (results : gmap Z (gmap string Tensor))
    (scene : Z) (name : string) (index : Z) : result R :=
  match metric_entry results scene name index with
  | Ok entry => item entry
  | Raise e => Raise e
  end.

Module CLE_Reward.
Section CLE_Reward.
Context {SimulationDataset UnrollInputOutput M : Type}.
Context `{!L5MetricSet SimulationDataset UnrollInputOutput M}.

Local Abbreviation RewardInput := (RewardInput SimulationDataset UnrollInputOutput).
Local Abbreviation SimulationOutputCLE :=
  (SimulationOutputCLE SimulationDataset UnrollInputOutput).

(** The attributes of a [CLE_Reward] instance.  [stop_error] does not
    exist until the first [get_reward] has set it. *)
Record t : Type := mk {
  reward_prefix : string;
  metric_set : M;
  use_yaw : option bool;
  yaw_weight : option R;
  enable_clip : bool;
  rew_clip_thresh : R;
  stop_flag : option bool;
  stop_thresh : option R;
  stop_error : option R
}.

Local Abbreviation Store := (Store SimulationDataset UnrollInputOutput t).

(** [__init__], with the arguments the caller passes. *)
Definition init (reward_prefix : string) (metric_set : M)
    (enable_clip : bool) (rew_clip_thresh : R)
    (use_yaw : option bool) (yaw_weight : option R)
    (stop_flag : option bool) (stop_thresh : option R) : t :=
  mk reward_prefix metric_set use_yaw yaw_weight enable_clip
     rew_clip_thresh stop_flag stop_thresh None.

(** [__init__] with every default of the signature but the metric set. *)
Definition init_default (metric_set : M) : t :=
  init "CLE" metric_set true 15 (Some true) (Some 3.0) (Some false) (Some 20).

Definition set_metric_set (m : M) (self : t) : t :=
  mk (reward_prefix self) m (use_yaw self) (yaw_weight self)
     (enable_clip self) (rew_clip_thresh self) (stop_flag self)
     (stop_thresh self) (stop_error self).

Definition set_stop_error (e : R) (self : t) : t :=
  mk (reward_prefix self) (metric_set self) (use_yaw self) (yaw_weight self)
     (enable_clip self) (rew_clip_thresh self) (stop_flag self)
     (stop_thresh self) (Some e).

(** Truth value of an [Optional[bool]] in a condition. *)
Definition truthy (b : option bool) : bool := default false b.

(** A method call on [self.metric_set]. *)
Definition on_metric_set {S A} (m : Py M A) (get : S -> t) (put : t -> S -> S)
  : Py S A :=
  fun st =>
    let '(r, ms) := m (metric_set (get st)) in
    (r, put (set_metric_set ms (get st)) st).

Definition reset : Py t unit :=
  on_metric_set ms_reset (fun self => self) (fun self _ => self).

(** [SimulationOutputCLE(scene_idx, sim_dataset, ego_ins_outs,
    agents_ins_outs)] on the fields of the input. *)
Definition output_for (ri : RewardInput) (scene_idx : Z)
  : SimulationOutputCLE :=
  mkSimulationOutputCLE scene_idx (sim_dataset ri) (ego_ins_outs ri)
    (agents_ins_outs ri).

(** The loop that fills [simulated_outputs]; it also leaves the loop
    variable [scene_idx] behind, unbound when the list is empty. *)
Definition build_simulated_outputs (ri : RewardInput)
  : list SimulationOutputCLE * option Z :=
  fold_left
    (fun acc scene_idx => (fst acc ++ [output_for ri scene_idx], Some scene_idx))
    (scene_indices ri) ([], None).

Definition put_self (self : t) (st : Store) : Store :=
  mkStore self (st_input st).

Definition get_reward : Py Store pyfloat :=
  reward_input ← py_gets st_input;
  let frame_index := frame_index reward_input in
  let scene_indices := scene_indices reward_input in
  py_assert (bool_decide (length scene_indices = 1%nat));;
  (* generate simulated_outputs *)
  let '(simulated_outputs, scene_idx) :=
    build_simulated_outputs reward_input in
  on_metric_set (ms_evaluate simulated_outputs) st_self put_self;;
  (* get CLE metrics *)
  scene_idx ← py_lift (match scene_idx with
                       | Some i => Ok i
                       | None => Raise UnboundLocalError
                       end);
  results ← py_gets (fun st => ms_scene_metric_results (metric_set (st_self st)));
  scene_metrics ← py_lift (dict_getitem_int results scene_idx);
  dist_series ← py_lift (dict_getitem scene_metrics "displacement_error_l2");
  dist_error ← py_lift (tensor_getitem dist_series (frame_index + 1));
  weight ← py_gets (fun st => yaw_weight (st_self st));
  yaw_series ← py_lift (dict_getitem scene_metrics "yaw_error_ca");
  yaw_at ← py_lift (tensor_getitem yaw_series (frame_index + 1));
  yaw_error ← py_lift (match weight with
                       | Some w => Ok (tmap (Rmult w) (tmap Rabs yaw_at))
                       | None => Raise TypeError
                       end);
  (* clip reward *)
  d ← py_lift (item dist_error);
  let reward := - d in
  clip ← py_gets (fun st => enable_clip (st_self st));
  reward ← (if (clip : bool) then
              thresh ← py_gets (fun st => rew_clip_thresh (st_self st));
              d ← py_lift (item dist_error);
              py_ret (py_max (- thresh) (- d))
            else py_ret reward);
  (* use yaw *)
  yaw ← py_gets (fun st => use_yaw (st_self st));
  reward ← (if truthy yaw then
              y ← py_lift (item yaw_error);
              py_ret (reward - y)
            else py_ret reward);
  (* for early stopping of episode *)
  d ← py_lift (item dist_error);
  py_modify (fun st => put_self (set_stop_error d (st_self st)) st);;
  py_ret (Float reward).

#[global] Instance CLE_Reward_Reward
  : Reward SimulationDataset UnrollInputOutput t :=
  {| reward_reset := reset; reward_get_reward := get_reward |}.
End CLE_Reward.
Arguments t : clear implicits.
End CLE_Reward.

Module OLE_Reward.
Section OLE_Reward.
Context {SimulationDataset UnrollInputOutput : Type}.

(** The attributes of an [OLE_Reward] instance. *)
Record t : Type := mk {
  reward_prefix : string
}.

Local Abbreviation Store := (Store SimulationDataset UnrollInputOutput t).

Definition init (reward_prefix : string) : t := mk reward_prefix.

Definition init_default : t := init "CLE".

Definition reset : Py t unit := py_ret tt.

Definition get_reward : Py Store pyfloat :=
  reward_input ← py_gets st_input;
  (* Reward for open loop training (MSE) *)
  let ego_output_dict := ego_output_dict reward_input in
  let ego_input_dict := ego_input_dict reward_input in
  positions ← py_lift (dict_getitem ego_output_dict "positions");
  target_positions ← py_lift (dict_getitem ego_input_dict "target_positions");
  difference ← py_lift (np_sub positions target_positions);
  let penalty := np_mean (np_square difference) in
  let reward := float_neg penalty in
  py_ret reward.

#[global] Instance OLE_Reward_Reward
  : Reward SimulationDataset UnrollInputOutput t :=
  {| reward_reset := reset; reward_get_reward := get_reward |}.
End OLE_Reward.
End OLE_Reward.

(** ** The closed-loop evaluator *)

Module ClosedLoopEvaluator.
Section ClosedLoopEvaluator.
(** What the validators recorded for one scene (the evaluation library's
    own data, opaque here). *)
Context {SceneValidation : Type}.

(** Modelled from the spec: [ClosedLoopEvaluator] is declared in
    l5kit/cle/closed_loop_evaluator.py, which is not among the sources.
    The spec gives it accumulated validation results, per-scene metric
    results ([scene_metric_results]), and a reset of "the evaluator's
    internal accumulation state". *)
Record t : Type := mk {
  scene_validation_results : gmap Z SceneValidation;
  scene_metric_results : gmap Z (gmap string Tensor)
}.

(** Modelled from the spec: [validation_results()] hands out the
    accumulated validation results. *)
Definition validation_results (self : t) : gmap Z SceneValidation :=
  scene_validation_results self.

(** Modelled from the spec: [reset()] clears the accumulation state. *)
Definition reset (self : t) : t := mk ∅ ∅.

End ClosedLoopEvaluator.
Arguments t : clear implicits.
End ClosedLoopEvaluator.

(** ** cle_utils.py *)

Module CleUtils.
Section CleUtils.
Context {SceneValidation : Type}.

(** [ValidationCountingAggregator().aggregate]: from the validation
    results to one count tensor per metric name, in the order of the
    resulting dictionary.  It belongs to the evaluation library and is
    taken as given; it may raise. *)
Variable aggregate :
  gmap Z SceneValidation -> result (list (string * Tensor)).

Inductive cell : Type :=
  | CStr (s : string)
  | CNum (x : R).

(** [PrettyTable]: the field names and the rows added so far. *)
Record PrettyTable : Type := mkPrettyTable {
  field_names : list string;
  rows : list (list cell)
}.

(** [table.add_row(row)]; the library refuses a row of the wrong width. *)
Definition add_row (row : list cell) (table : PrettyTable)
  : result PrettyTable :=
  if decide (length row = length (field_names table)) then
    Ok (mkPrettyTable (field_names table) (rows table ++ [row]))
  else Raise ValueError.

(** The evaluator passed to the function and the standard output, as the
    sequence of tables printed on it. *)
Record World : Type := mkWorld {
  cle_evaluator : ClosedLoopEvaluator.t SceneValidation;
  stdout : list PrettyTable
}.

(** The loop over [agg_log]. *)
Fixpoint add_rows (agg_log : list (string * Tensor)) (table : PrettyTable)
  : result PrettyTable :=
  match agg_log with
  | [] => Ok table
  | (metric_name, count) :: rest =>
      match item count with
      | Ok c =>
          match add_row [CStr metric_name; CNum c] table with
          | Ok table' => add_rows rest table'
          | Raise e => Raise e
          end
      | Raise e => Raise e
      end
  end.

Definition aggregate_cle_metrics : Py World unit :=
  (* [validation_results_log] is the evaluator's own store, not a copy:
     it is read where it is used *)
  let validation_results_log :=
    fun w => ClosedLoopEvaluator.validation_results (cle_evaluator w) in
  agg_log ← (fun w => (aggregate (validation_results_log w), w));
  py_modify (fun w =>
    mkWorld (ClosedLoopEvaluator.reset (cle_evaluator w)) (stdout w));;
  let fields := ["metric"; "log_replayed agents"] in
  let table := mkPrettyTable fields [] in
  table ← py_lift (add_rows agg_log table);
  py_modify (fun w => mkWorld (cle_evaluator w) (stdout w ++ [table])).

End CleUtils.
Arguments World : clear implicits.
End CleUtils.

(** ** Concrete data: a replaying metric set, inputs, an aggregator *)

Module Fixture.

(** A metric set that holds results computed beforehand and counts how
    often it was asked to evaluate. *)
Record ReplayMetricSet : Type := mkReplay {
  evaluations : nat;
  replayed : gmap Z (gmap string Tensor)
}.

#[global] Instance ReplayMetricSet_L5MetricSet
  : L5MetricSet unit unit ReplayMetricSet :=
  {| ms_reset := py_modify (fun m => mkReplay (evaluations m) ∅);
     ms_evaluate := fun _ =>
       py_modify (fun m => mkReplay (S (evaluations m)) (replayed m));
     ms_scene_metric_results := replayed |}.

(** Scene 7 after two steps: displacement errors 0, 20, 4 and yaw errors
    0, -2, 1. *)
Definition scene7 : gmap string Tensor :=
  {[ "displacement_error_l2" := mkTensor [3%nat] [0; 20; 4];
     "yaw_error_ca" := mkTensor [3%nat] [0; -2; 1] ]}.

Definition replay7 : ReplayMetricSet := mkReplay 0 {[ 7%Z := scene7 ]}.

Definition input_at (frame : Z) (scenes : list Z) : RewardInput unit unit :=
  mkRewardInput frame scenes tt ∅ ∅ ∅ ∅.

(** The default reward of the constructor, and the same without the yaw
    penalty. *)
Definition reward_default : CLE_Reward.t ReplayMetricSet :=
  CLE_Reward.init_default replay7.

Definition reward_no_yaw : CLE_Reward.t ReplayMetricSet :=
  CLE_Reward.init "CLE" replay7 true 15 (Some false) (Some 3.0)
    (Some false) (Some 20).

(** The same scene when the yaw metric was not computed. *)
Definition scene7_without_yaw : gmap string Tensor :=
  {[ "displacement_error_l2" := mkTensor [3%nat] [0; 20; 4] ]}.

Definition reward_without_yaw_metric : CLE_Reward.t ReplayMetricSet :=
  CLE_Reward.init "CLE" (mkReplay 0 {[ 7%Z := scene7_without_yaw ]})
    true 15 (Some false) (Some 3.0) (Some false) (Some 20).

(** Two predicted and two target positions in the plane. *)
Definition predicted : Tensor := mkTensor [2; 2]%nat [1; 2; 3; 4].
Definition targets : Tensor := mkTensor [2; 2]%nat [1; 2; 3; 6].

Definition open_loop_input : RewardInput unit unit :=
  mkRewardInput 0 [7%Z] tt ∅ ∅
    {[ "positions" := predicted ]} {[ "target_positions" := targets ]}.

(** An aggregator that reports one count, the number of scenes with
    validation results; a scene's results are the names of its failed
    validators. *)
Definition count_scenes (results : gmap Z (list string))
  : result (list (string * Tensor)) :=
  Ok [("scenes", mkTensor [] [INR (size results)])].

Definition evaluated_world : CleUtils.World (list string) :=
  CleUtils.mkWorld
    (ClosedLoopEvaluator.mk {[ 7%Z := ["collision"] ]} {[ 7%Z := scene7 ]})
    [].

End Fixture.

(** ** reward.py: the objects [CLE_Reward.get_reward] hands on *)

Module ByReference.

Section Handed.
Context {SimulationDataset UnrollInputOutput : Type}.

Local Abbreviation RewardInput := (RewardInput SimulationDataset UnrollInputOutput).

(** The objects of the input that line 105 passes to the constructor of
    [SimulationOutputCLE] and that line 106 passes on, inside the
    outputs, to [evaluate].  Python passes references: the two
    collaborators hold the very objects the input refers to, and what
    they write there shows in the input.  The fields of the input are
    taken to refer to distinct objects, so that these three are all a
    collaborator can reach. *)
Record Handed : Type := mkHanded {
  h_sim_dataset : SimulationDataset;
  h_ego_ins_outs : gmap Z (list UnrollInputOutput);
  h_agents_ins_outs : gmap Z (list (list UnrollInputOutput))
}.

Definition handed (ri : RewardInput) : Handed :=
  mkHanded (sim_dataset ri) (ego_ins_outs ri) (agents_ins_outs ri).

(** The input as it reads once a collaborator is done with the objects. *)
Definition hand_back (h : Handed) (ri : RewardInput) : RewardInput :=
  mkRewardInput (frame_index ri) (scene_indices ri)
    (h_sim_dataset h) (h_ego_ins_outs h) (h_agents_ins_outs h)
    (ego_output_dict ri) (ego_input_dict ri).

(** The fields that no collaborator is handed. *)
Definition kept_back (ri : RewardInput)
  : Z * list Z * gmap string Tensor * gmap string Tensor :=
  (frame_index ri, scene_indices ri, ego_output_dict ri, ego_input_dict ri).
End Handed.

Arguments Handed : clear implicits.

(** The two collaborators of lines 105-106, both declared in
    cle_metricset.py, which is not among the sources.  Only their
    signatures are fixed: the constructor computes over the three objects
    it is handed and builds an object of some type [Out]; [evaluate]
    computes over the metric set's own state and over the same three
    objects, which it reaches through the outputs.  Either may write to
    the objects, and either may raise. *)
Class Collaborators (SimulationDataset UnrollInputOutput Out M : Type) := {
  SimulationOutputCLE_init :
    Z -> Py (Handed SimulationDataset UnrollInputOutput) Out;
  evaluate :
    list Out -> Py (M * Handed SimulationDataset UnrollInputOutput) unit;
  scene_metric_results : M -> gmap Z (gmap string Tensor)
}.

Section get_reward.
Context {SimulationDataset UnrollInputOutput Out M : Type}.
Context `{!Collaborators SimulationDataset UnrollInputOutput Out M}.

Local Abbreviation Handed := (Handed SimulationDataset UnrollInputOutput).
Local Abbreviation Store :=
  (Store SimulationDataset UnrollInputOutput (CLE_Reward.t M)).

(** A call that is handed the three objects of the input. *)
Definition on_handed {A} (m : Py Handed A) : Py Store A :=
  fun st =>
    let '(r, h) := m (handed (st_input st)) in
    (r, mkStore (st_self st) (hand_back h (st_input st))).

(** A method call on [self.metric_set] whose arguments hold the three
    objects of the input. *)
Definition on_metric_set_handed {A} (m : Py (M * Handed) A) : Py Store A :=
  fun st =>
    let '(r, (ms, h)) :=
      m (CLE_Reward.metric_set (st_self st), handed (st_input st)) in
    (r, mkStore (CLE_Reward.set_metric_set ms (st_self st))
          (hand_back h (st_input st))).

(** The loop that fills [simulated_outputs], one constructor call for
    each scene; it also leaves the loop variable [scene_idx] behind. *)
Fixpoint build_simulated_outputs (scene_indices : list Z)
    (simulated_outputs : list Out) (last : option Z)
  : Py Store (list Out * option Z) :=
  match scene_indices with
  | [] => py_ret (simulated_outputs, last)
  | scene_idx :: rest =>
      out ← on_handed (SimulationOutputCLE_init scene_idx);
      build_simulated_outputs rest (simulated_outputs ++ [out]) (Some scene_idx)
  end.

(** [CLE_Reward.get_reward], lines 88-125, statement by statement as in
    [CLE_Reward.get_reward] above, but for lines 105 and 106, where the
    collaborators act on the objects they are handed. *)
Definition get_reward : Py Store pyfloat :=
  reward_input ← py_gets st_input;
  let frame_index := frame_index reward_input in
  let scene_indices := scene_indices reward_input in
  py_assert (bool_decide (length scene_indices = 1%nat));;
  (* generate simulated_outputs *)
  built ← build_simulated_outputs scene_indices [] None;
  let '(simulated_outputs, scene_idx) := built in
  on_metric_set_handed (evaluate simulated_outputs);;
  (* get CLE metrics *)
  scene_idx ← py_lift (match scene_idx with
                       | Some i => Ok i
                       | None => Raise UnboundLocalError
                       end);
  results ← py_gets (fun st =>
               scene_metric_results (CLE_Reward.metric_set (st_self st)));
  scene_metrics ← py_lift (dict_getitem_int results scene_idx);
  dist_series ← py_lift (dict_getitem scene_metrics "displacement_error_l2");
  dist_error ← py_lift (tensor_getitem dist_series (frame_index + 1));
  weight ← py_gets (fun st => CLE_Reward.yaw_weight (st_self st));
  yaw_series ← py_lift (dict_getitem scene_metrics "yaw_error_ca");
  yaw_at ← py_lift (tensor_getitem yaw_series (frame_index + 1));
  yaw_error ← py_lift (match weight with
                       | Some w => Ok (tmap (Rmult w) (tmap Rabs yaw_at))
                       | None => Raise TypeError
                       end);
  (* clip reward *)
  d ← py_lift (item dist_error);
  let reward := - d in
  clip ← py_gets (fun st => CLE_Reward.enable_clip (st_self st));
  reward ← (if (clip : bool) then
              thresh ← py_gets (fun st =>
                         CLE_Reward.rew_clip_thresh (st_self st));
              d ← py_lift (item dist_error);
              py_ret (py_max (- thresh) (- d))
            else py_ret reward);
  (* use yaw *)
  yaw ← py_gets (fun st => CLE_Reward.use_yaw (st_self st));
  reward ← (if CLE_Reward.truthy yaw then
              y ← py_lift (item yaw_error);
              py_ret (reward - y)
            else py_ret reward);
  (* for early stopping of episode *)
  d ← py_lift (item dist_error);
  py_modify (fun st =>
    CLE_Reward.put_self (CLE_Reward.set_stop_error d (st_self st)) st);;
  py_ret (Float reward).
End get_reward.

(** Collaborators that leave what they are handed alone: the constructor
    keeps its four arguments, [evaluate] is a method of a metric set that
    acts on its own state. *)
Definition of_metric_set {SimulationDataset UnrollInputOutput M : Type}
    `{!L5MetricSet SimulationDataset UnrollInputOutput M}
  : Collaborators SimulationDataset UnrollInputOutput
      (SimulationOutputCLE SimulationDataset UnrollInputOutput) M :=
  {| SimulationOutputCLE_init := fun scene_idx =>
       py_gets (fun h =>
         mkSimulationOutputCLE scene_idx (h_sim_dataset h)
           (h_ego_ins_outs h) (h_agents_ins_outs h));
     evaluate := fun simulated_outputs st =>
       let '(r, ms) := ms_evaluate simulated_outputs (fst st) in
       (r, (ms, snd st));
     scene_metric_results := ms_scene_metric_results |}.

End ByReference.

(** ** Concrete data: a metric set that reads the histories *)

Module HistoryFixture.

(** [d[k]] on a [collections.defaultdict(list)], the type lines 26-27
    declare for the two histories: a key that is missing is first stored
    with an empty list. *)
Definition defaultdict_getitem {V} (k : Z) : Py (gmap Z (list V)) (list V) :=
  fun d =>
    match d !! k with
    | Some v => (Ok v, d)
    | None => (Ok [], <[k := []]> d)
    end.

(** [evaluate] of a metric set that goes through the outputs scene by
    scene: for each one it reads the ego history of the output's scene,
    [ego_ins_outs[scene_id]], and counts the evaluation.  The output's
    [ego_ins_outs] is the object the input refers to, so the read is a
    read of the handed dictionary. *)
Definition evaluate_one (out : SimulationOutputCLE unit unit)
  : Py (Fixture.ReplayMetricSet * ByReference.Handed unit unit) unit :=
  fun st =>
    let '(_, ego) :=
      defaultdict_getitem (so_scene_id out)
        (ByReference.h_ego_ins_outs (snd st)) in
    (Ok tt,
     (Fixture.mkReplay (S (Fixture.evaluations (fst st)))
        (Fixture.replayed (fst st)),
      ByReference.mkHanded (ByReference.h_sim_dataset (snd st)) ego
        (ByReference.h_agents_ins_outs (snd st)))).

Fixpoint evaluate_each (outs : list (SimulationOutputCLE unit unit))
  : Py (Fixture.ReplayMetricSet * ByReference.Handed unit unit) unit :=
  match outs with
  | [] => py_ret tt
  | out :: rest => evaluate_one out;; evaluate_each rest
  end.

(** The constructor keeps its four arguments. *)
Definition history_reader
  : ByReference.Collaborators unit unit (SimulationOutputCLE unit unit)
      Fixture.ReplayMetricSet :=
  {| ByReference.SimulationOutputCLE_init := fun scene_idx =>
       py_gets (fun h =>
         mkSimulationOutputCLE scene_idx (ByReference.h_sim_dataset h)
           (ByReference.h_ego_ins_outs h) (ByReference.h_agents_ins_outs h));
     ByReference.evaluate := evaluate_each;
     ByReference.scene_metric_results := Fixture.replayed |}.

(** The first step of an episode on scene 7: no history is recorded yet. *)
Definition first_step
  : Store unit unit (CLE_Reward.t Fixture.ReplayMetricSet) :=
  mkStore Fixture.reward_default (Fixture.input_at 1 [7%Z]).

End HistoryFixture.

(** ** error_functions.py: [l2_error] *)

(** [a - b] on torch tensors: numpy's broadcasting rules, and
    [RuntimeError] when the shapes have no common one. *)
Definition torch_sub (a b : Tensor) : result Tensor :=
  match broadcast_shapes (shape a) (shape b) with
  | Some t => Ok (tmap2 Rminus (broadcast_to a t) (broadcast_to b t))
  | None => Raise RuntimeError
  end.

(** [torch.norm(t, p=2, dim=-1)]: the Euclidean norm of every run along
    the last dimension, which disappears from the shape.  A 0-d tensor
    counts as one run of one element. *)
Definition norm_last_dim (t : Tensor) : Tensor :=
  let batch := removelast (shape t) in
  let k := List.last (shape t) 1%nat in
  mkTensor batch
    (List.map (fun run => sqrt (Rsum (List.map (fun x => x * x) run)))
       (chunks k (numel batch) (data t))).

Definition l2_error (pred gt : Tensor) : result Tensor :=
  match torch_sub pred gt with
  | Ok difference => Ok (norm_last_dim difference)
  | Raise e => Raise e
  end.

(** ** visualiser.py *)

Module Visualiser.

(** What a column of a plotting dictionary holds: coordinate arrays,
    strings, integers or numbers. *)
Inductive column_value : Type :=
  | VArray (xs : list R)
  | VStr (s : string)
  | VInt (z : Z)
  | VNum (x : R).

(** [d[k].append(v)] on a [defaultdict(list)]: a missing key starts from
    the empty list. *)
Definition dd_append (k : string) (v : column_value)
    (d : gmap string (list column_value)) : gmap string (list column_value) :=
  <[k := default [] (d !! k) ++ [v]]> d.

(** [COLORS]; the first three keys are the names of the members of
    [TLFacesColors]. *)
Definition COLORS : gmap string string :=
  {[ "GREEN" := "#33CC33";
     "RED" := "#FF3300";
     "YELLOW" := "#FFFF66";
     "PERCEPTION_LABEL_CAR" := "#1F77B4";
     "PERCEPTION_LABEL_CYCLIST" := "#CC33FF";
     "PERCEPTION_LABEL_PEDESTRIAN" := "#66CCFF" ]}.

(** One row of the [agents] array, with the fields the visualiser reads. *)
Record Agent : Type := mkAgent {
  centroid : R * R;
  extent : R * R * R;
  yaw : R;
  track_id : Z;
  label_probabilities : list R
}.

(** [np.argmax] of one row: the first position of the largest value. *)
Fixpoint argmax_from (best_i : nat) (best : R) (i : nat) (xs : list R) : nat :=
  match xs with
  | [] => best_i
  | x :: xs' =>
      if Rlt_dec best x then argmax_from i x (S i) xs'
      else argmax_from best_i best (S i) xs'
  end.

Definition np_argmax (xs : list R) : result nat :=
  match xs with
  | [] => Raise ValueError
  | x :: xs' => Ok (argmax_from 0 x 1 xs')
  end.

(** [xs[i]] on a list or array, for an index that is not negative. *)
Definition list_getitem {A} (xs : list A) (i : nat) : result A :=
  match xs !! i with
  | Some x => Ok x
  | None => Raise IndexError
  end.

(** A loop whose body may raise: the results in order, or the first
    exception. *)
Fixpoint for_each {A B} (f : A -> result B) (xs : list A) : result (list B) :=
  match xs with
  | [] => Ok []
  | x :: xs' =>
      match f x with
      | Ok y =>
          match for_each f xs' with
          | Ok ys => Ok (y :: ys)
          | Raise e => Raise e
          end
      | Raise e => Raise e
      end
  end.

(** [corners_base_coords]: the corners of the unit square about the
    origin. *)
Definition corners_base_coords : list (R * R) :=
  List.map (fun xy => (fst xy * 0.5, snd xy * 0.5))
    [(-1, -1); (-1, 1); (1, 1); (1, -1)].

(** One row of [box_world_coords]: the base corners scaled by the first
    two extents, multiplied on the right by the row's matrix
    [((c, s), (-s, c))] of [rotation_m] and moved to the centroid. *)
Definition box_world_coords (a : Agent) : list (R * R) :=
  let s := sin (yaw a) in
  let c := cos (yaw a) in
  List.map
    (fun base =>
       let mx := fst base * fst (fst (extent a)) in
       let my := snd base * snd (fst (extent a)) in
       (mx * c + my * (- s) + fst (centroid a),
        mx * s + my * c + snd (centroid a)))
    corners_base_coords.

(** Slicing [xs[start:stop]] with Python's treatment of negative and
    oversized bounds. *)
Definition py_slice {A} (xs : list A) (start stop : Z) : list A :=
  let n := Z.of_nat (length xs) in
  let clamp := fun i => Z.max 0 (Z.min n (if decide (i < 0)%Z then i + n else i)%Z) in
  let lo := clamp start in
  let hi := clamp stop in
  take (Z.to_nat (hi - lo)) (drop (Z.to_nat lo) xs).

(** What the visualiser takes from the rest of the package and from the
    map object: the record fields and functions it calls, over the opaque
    data of the dataset ([Frame], [AgentsFrame], [TLFaces]) and of the map
    ([Bounds], [MapAPI]). *)
Class Imports (Frame AgentsFrame TLFaces Bounds MapAPI : Type) := {
  (* frame["ego_translation"] *)
  ego_translation : Frame -> R * R * R;
  (* mapAPI.bounds_info["lanes"] and ["crosswalks"]: "bounds" and "ids" *)
  lanes_bounds : MapAPI -> Bounds;
  lanes_ids : MapAPI -> list string;
  crosswalks_bounds : MapAPI -> Bounds;
  crosswalks_ids : MapAPI -> list string;
  (* the methods of mapAPI *)
  get_lane_traffic_control_ids : MapAPI -> string -> list string;
  get_color_for_face : MapAPI -> string -> string;
  get_lane_coords : MapAPI -> string -> list (R * R * R) * list (R * R * R);
  get_crosswalk_coords : MapAPI -> string -> list (R * R * R);
  (* functions and constants of other modules *)
  indices_in_bounds : R * R -> Bounds -> R -> list nat;
  filter_tl_faces_by_status : TLFaces -> string -> TLFaces;
  face_id : TLFaces -> list string;
  get_ego_as_agent : Frame -> Agent;
  PERCEPTION_LABELS : list string;
  (* get_relative_poses(n, frames, track_id, agents, np.eye(3), 0), of
     which the visualiser keeps the positions and the availabilities *)
  get_relative_poses :
    Z -> list Frame -> option Z -> list AgentsFrame -> list (R * R) * list R;
  (* the order in which Python walks through the intersection of the sets
     of two collections of identifiers *)
  intersection_order : list string -> list string -> list string
}.

Section Visualiser.
Context {Frame AgentsFrame TLFaces Bounds MapAPI : Type}.
Context `{!Imports Frame AgentsFrame TLFaces Bounds MapAPI}.

(** The inner loop over the active traffic-light faces of a lane. *)
Fixpoint lane_colour_loop (mapAPI : MapAPI) (tl_ids : list string)
    (lane_colour : string) : result string :=
  match tl_ids with
  | [] => Ok lane_colour
  | tl_id :: rest =>
      match dict_getitem COLORS (get_color_for_face mapAPI tl_id) with
      | Ok colour => lane_colour_loop mapAPI rest colour
      | Raise e => Raise e
      end
  end.

(** One round of the loop over the lanes: the polygon and its colour. *)
Definition lane_entry (mapAPI : MapAPI) (active_tl_ids : list string)
    (lane_idx : nat) : result (list R * list R * string) :=
  match list_getitem (lanes_ids mapAPI) lane_idx with
  | Ok lane_idx =>
      let lane_tl_ids := get_lane_traffic_control_ids mapAPI lane_idx in
      match lane_colour_loop mapAPI
              (intersection_order lane_tl_ids active_tl_ids) "gray" with
      | Ok lane_colour =>
          let lane_coords := get_lane_coords mapAPI lane_idx in
          let left_lane := List.map fst (fst lane_coords) in
          let right_lane := List.map fst (rev (snd lane_coords)) in
          Ok (List.map fst left_lane ++ List.map fst right_lane,
              List.map snd left_lane ++ List.map snd right_lane,
              lane_colour)
      | Raise e => Raise e
      end
  | Raise e => Raise e
  end.

Definition lanes_append (d : gmap string (list column_value))
    (lane : list R * list R * string) : gmap string (list column_value) :=
  dd_append "color" (VStr (snd lane))
    (dd_append "y" (VArray (snd (fst lane)))
       (dd_append "x" (VArray (fst (fst lane))) d)).

Definition crosswalk_entry (mapAPI : MapAPI) (idx : nat)
  : result (list R * list R) :=
  match list_getitem (crosswalks_ids mapAPI) idx with
  | Ok crosswalk_id =>
      let xyz := get_crosswalk_coords mapAPI crosswalk_id in
      Ok (List.map (fun p => fst (fst p)) xyz,
          List.map (fun p => snd (fst p)) xyz)
  | Raise e => Raise e
  end.

Definition crosswalks_append (d : gmap string (list column_value))
    (crosswalk : list R * list R) : gmap string (list column_value) :=
  dd_append "y" (VArray (snd crosswalk))
    (dd_append "x" (VArray (fst crosswalk)) d).

(** The colour of an agent by the name of its label. *)
Definition agent_colour (n : string) : string :=
  match COLORS !! n with
  | None => "#1F77B4"
  | Some colour => colour
  end.

Definition get_frame_data (mapAPI : MapAPI) (frame : Frame)
    (agents : list Agent) (tls_frame : TLFaces)
  : result (gmap string (list column_value) * gmap string (list column_value)
            * gmap string (list column_value)
            * gmap string (list column_value)) :=
  let ego_xy := fst (ego_translation frame) in
  (* plot lanes *)
  let lane_indices := indices_in_bounds ego_xy (lanes_bounds mapAPI) 50 in
  let active_tl_ids := face_id (filter_tl_faces_by_status tls_frame "ACTIVE") in
  match for_each (lane_entry mapAPI active_tl_ids) lane_indices with
  | Raise e => Raise e
  | Ok lanes =>
  let lanes_dict := fold_left lanes_append lanes ∅ in
  (* plot crosswalks *)
  let crosswalk_indices :=
    indices_in_bounds ego_xy (crosswalks_bounds mapAPI) 50 in
  match for_each (crosswalk_entry mapAPI) crosswalk_indices with
  | Raise e => Raise e
  | Ok crosswalks =>
  let crosswalks_dict :=
    fold_left crosswalks_append crosswalks {[ "x" := nil; "y" := nil ]} in
  (* plot ego and agent cars *)
  let agents := get_ego_as_agent frame :: agents in
  let boxes := List.map box_world_coords agents in
  match list_getitem boxes 0 with
  | Raise e => Raise e
  | Ok ego_box =>
  let ego_dict : gmap string (list column_value) :=
    <["y" := [VArray (List.map snd ego_box)]]>
      (<["x" := [VArray (List.map fst ego_box)]]>
         ({[ "x" := nil; "y" := nil ]})) in
  let agents := drop 1 agents in
  let boxes := drop 1 boxes in
  match for_each (fun a => np_argmax (label_probabilities a)) agents with
  | Raise e => Raise e
  | Ok label_indices =>
  match for_each (list_getitem PERCEPTION_LABELS) label_indices with
  | Raise e => Raise e
  | Ok names =>
  match for_each (fun ai => list_getitem (label_probabilities (fst ai)) (snd ai))
          (zip agents label_indices) with
  | Raise e => Raise e
  | Ok probabilities =>
  let agents_dict : gmap string (list column_value) :=
    <["color" := List.map (fun n => VStr (agent_colour n)) names]>
      (<["p" := List.map VNum probabilities]>
         (<["name" := List.map VStr names]>
            (<["id" := List.map (fun a => VInt (track_id a)) agents]>
               (<["y" := List.map (fun b => VArray (List.map snd b)) boxes]>
                  (<["x" := List.map (fun b => VArray (List.map fst b)) boxes]>
                     ∅))))) in
  Ok (lanes_dict, crosswalks_dict, ego_dict, agents_dict)
  end end end end end end.

(** [pos[avail > 0, 0]] and [pos[avail > 0, 1]]: the rows of [pos] that
    the mask keeps; the mask must be as long as [pos]. *)
Definition masked_columns (pos : list (R * R)) (avail : list R)
  : result (list R * list R) :=
  if decide (length avail = length pos) then
    let kept :=
      List.map fst
        (List.filter (fun pa => if Rlt_dec 0 (snd pa) then true else false)
           (zip pos avail)) in
    Ok (List.map fst kept, List.map snd kept)
  else Raise IndexError.

Definition trajectory_append (d : gmap string (list column_value))
    (xy : list R * list R) : gmap string (list column_value) :=
  dd_append "y" (VArray (snd xy)) (dd_append "x" (VArray (fst xy)) d).

Definition get_frame_trajectories (frames : list Frame)
    (agents_frames : list AgentsFrame) (track_ids : list Z) (frame_index : Z)
  : result (gmap string (list column_value) * gmap string (list column_value)) :=
  let agent_traj_length := 20%Z in
  match for_each
          (fun track_id =>
             let '(pos, avail) :=
               get_relative_poses agent_traj_length
                 (py_slice frames frame_index (frame_index + agent_traj_length))
                 (Some track_id)
                 (py_slice agents_frames frame_index
                    (frame_index + agent_traj_length)) in
             masked_columns pos avail)
          track_ids with
  | Raise e => Raise e
  | Ok trajectories =>
  let traj_agents := fold_left trajectory_append trajectories ∅ in
  let ego_traj_length := 100%Z in
  let '(pos, avail) :=
    get_relative_poses ego_traj_length
      (py_slice frames frame_index (frame_index + ego_traj_length))
      None
      (py_slice agents_frames frame_index (frame_index + ego_traj_length))
    in
  match masked_columns pos avail with
  | Raise e => Raise e
  | Ok xy => Ok (traj_agents, trajectory_append ∅ xy)
  end
  end.

End Visualiser.
End Visualiser.

(** ** Concrete data: aggregators, a small map, one frame *)

Module Samples.

(** An aggregator that fails, and one whose count tensor holds two
    values. *)
Definition failing_aggregator (results : gmap Z (list string))
  : result (list (string * Tensor)) :=
  Raise (External "aggregate").

Definition two_valued_aggregator (results : gmap Z (list string))
  : result (list (string * Tensor)) :=
  Ok [("scenes", mkTensor [2%nat] [1; 2])].

(** A map with one lane, controlled by one red traffic light, and no
    crosswalk; a frame is its ego translation, the traffic-light faces of
    a frame are the identifiers of its active faces, and the bounds are
    the indices they hold. *)
#[global] Instance small_map
  : Visualiser.Imports (R * R * R) unit (list string) (list nat) unit :=
  {| Visualiser.ego_translation := fun frame => frame;
     Visualiser.lanes_bounds := fun _ => [0%nat];
     Visualiser.lanes_ids := fun _ => ["lane"];
     Visualiser.crosswalks_bounds := fun _ => nil;
     Visualiser.crosswalks_ids := fun _ => nil;
     Visualiser.get_lane_traffic_control_ids := fun _ _ => ["light"];
     Visualiser.get_color_for_face := fun _ _ => "RED";
     Visualiser.get_lane_coords := fun _ _ =>
       ([(0, 0, 0); (1, 0, 0)], [(0, 1, 0); (1, 1, 0)]);
     Visualiser.get_crosswalk_coords := fun _ _ => nil;
     Visualiser.indices_in_bounds := fun _ bounds _ => bounds;
     Visualiser.filter_tl_faces_by_status := fun faces _ => faces;
     Visualiser.face_id := fun faces => faces;
     Visualiser.get_ego_as_agent := fun frame =>
       Visualiser.mkAgent (fst frame) (4, 2, 1) 0 (-1) [1];
     Visualiser.PERCEPTION_LABELS := ["PERCEPTION_LABEL_CAR"];
     Visualiser.get_relative_poses := fun _ _ _ _ => ([(1, 2)], [1]);
     Visualiser.intersection_order := fun ids active =>
       List.filter (fun x => bool_decide (x ∈ active)) ids |}.

Definition car : Visualiser.Agent :=
  Visualiser.mkAgent (10, 5) (4, 2, 1) 0 42 [1].

Definition origin_frame : R * R * R := (0, 0, 0).

End Samples.

(** ** Specification vocabulary *)

(** A tensor whose element count is the one its shape announces. *)
Definition well_formed (t : Tensor) : Prop :=
  length (data t) = numel (shape t).

(** The spec's words for the open-loop penalty: the mean of the squared
    elementwise differences of two arrays of one shape. *)
Fixpoint sum_squared_differences (xs ys : list R) : R :=
  match xs, ys with
  | x :: xs', y :: ys' => Rsqr (x - y) + sum_squared_differences xs' ys'
  | _, _ => 0
  end.

Definition mean_squared_error_spec (p t : Tensor) : R :=
  sum_squared_differences (data p) (data t) / INR (numel (shape p)).

(** The rows the spec's table shows for an aggregation result: the metric
    name and the count its tensor holds. *)
Definition count_row (entry : string * Tensor) (row : list CleUtils.cell)
  : Prop :=
  exists c, item (snd entry) = Ok c /\
            row = [CleUtils.CStr (fst entry); CleUtils.CNum c].

(** [keeps_when_raising f m]: a run of [m] that raises leaves the part
    [f] of the store as it was. *)
Definition keeps_when_raising {S X A} (f : S -> X) (m : Py S A) : Prop :=
  forall st e, fst (m st) = Raise e -> f (snd (m st)) = f st.

(** The constructor arguments of a [CLE_Reward] other than the metric
    set. *)
Definition cle_configuration {M} (self : CLE_Reward.t M)
  : string * option bool * option R * bool * R * option bool * option R :=
  (CLE_Reward.reward_prefix self, CLE_Reward.use_yaw self,
   CLE_Reward.yaw_weight self, CLE_Reward.enable_clip self,
   CLE_Reward.rew_clip_thresh self, CLE_Reward.stop_flag self,
   CLE_Reward.stop_thresh self).

(** The squared distance of two points of the plane. *)
Definition sq_dist (p q : R * R) : R :=
  Rsqr (fst p - fst q) + Rsqr (snd p - snd q).

(** * Properties *)

(** ** [fmod] and [closest_angle] *)

Section ErrorFunctionsFacts.
Import ErrorFunctions.

Lemma two_pi_val : two_pi = 2 * PI.
Proof. unfold two_pi. lra. Qed.

Lemma two_pi_pos : 0 < two_pi.
Proof. rewrite two_pi_val. pose proof PI_RGT_0. lra. Qed.

Lemma Ztrunc_opp x : Ztrunc (- x) = (- Ztrunc x)%Z.
Proof.
  unfold Ztrunc, Zceil.
  destruct (Rle_dec 0 (- x)) as [H1|H1], (Rle_dec 0 x) as [H2|H2].
  - assert (x = 0) by lra. subst x. rewrite Ropp_0.
    change 0 with (IZR 0). rewrite ZfloorZ. reflexivity.
  - lia.
  - rewrite Ropp_involutive. lia.
  - lra.
Qed.

(** [fmod] is odd in its dividend. *)
Lemma fmod_opp x y : fmod (- x) y = - fmod x y.
Proof.
  unfold fmod.
  replace (- x / y) with (- (x / y)) by (unfold Rdiv; ring).
  rewrite Ztrunc_opp, opp_IZR. ring.
Qed.

Lemma div_bounds x y (k : R) :
  0 < y -> k * y <= x < (k + 1) * y -> k <= x / y < k + 1.
Proof.
  intros Hy [Hlo Hhi]. unfold Rdiv. split.
  - apply Rmult_le_reg_r with y; [lra|].
    rewrite Rmult_assoc, Rinv_l; lra.
  - apply Rmult_lt_reg_r with y; [lra|].
    rewrite Rmult_assoc, Rinv_l; lra.
Qed.

(** Below the modulus [fmod] returns its dividend. *)
Lemma fmod_small x y : 0 <= x < y -> fmod x y = x.
Proof.
  intros Hx. unfold fmod, Ztrunc.
  assert (Hq : 0 <= x / y < 0 + 1) by (apply div_bounds; lra).
  destruct (Rle_dec 0 (x / y)); [|lra].
  rewrite (Zfloor_eq 0); simpl; lra.
Qed.

(** Between one and two moduli it removes the modulus once. *)
Lemma fmod_second x y : 0 < y -> y <= x < 2 * y -> fmod x y = x - y.
Proof.
  intros Hy Hx. unfold fmod, Ztrunc.
  assert (Hq : 1 <= x / y < 1 + 1) by (apply div_bounds; lra).
  destruct (Rle_dec 0 (x / y)); [|lra].
  rewrite (Zfloor_eq 1); simpl; lra.
Qed.

Lemma fmod_range_pos x y : 0 < y -> 0 <= x -> 0 <= fmod x y < y.
Proof.
  intros Hy Hx. unfold fmod, Ztrunc.
  assert (Hq : 0 <= x / y).
  { apply Rmult_le_pos; [lra|]. left. apply Rinv_0_lt_compat. lra. }
  destruct (Rle_dec 0 (x / y)); [|lra].
  pose proof (Zfloor_bound (x / y)) as [Hlo Hhi].
  assert (Hxy : x = y * (x / y)) by (field; lra).
  split.
  - apply Rmult_le_compat_l with (r := y) in Hlo; lra.
  - apply Rmult_lt_compat_l with (r := y) in Hhi; lra.
Qed.

Lemma closest_angle1_opp a b : closest_angle1 a b = - closest_angle1 b a.
Proof.
  unfold closest_angle1. cbv zeta.
  replace (b - a) with (- (a - b)) by ring.
  rewrite fmod_opp.
  replace (2.0 * - fmod (a - b) two_pi)
    with (- (2.0 * fmod (a - b) two_pi)) by ring.
  rewrite fmod_opp. ring.
Qed.

Lemma closest_angle1_same a : closest_angle1 a a = 0.
Proof. pose proof (closest_angle1_opp a a). lra. Qed.

(** When [b - a] is not negative the result is in [[-PI, PI)]. *)
Lemma closest_angle1_nonneg_diff a b :
  0 <= b - a -> - PI <= closest_angle1 a b < PI.
Proof.
  intros Hd. unfold closest_angle1. cbv zeta.
  pose proof two_pi_pos as Hp. pose proof two_pi_val as Hv.
  pose proof (fmod_range_pos (b - a) two_pi Hp Hd) as Hw.
  set (w := fmod (b - a) two_pi) in *.
  destruct (Rlt_dec w PI) as [Hlt|Hge].
  - rewrite fmod_small; lra.
  - rewrite fmod_second; lra.
Qed.

Lemma closest_angle1_range a b : - PI <= closest_angle1 a b <= PI.
Proof.
  destruct (Rle_dec 0 (b - a)) as [H|H].
  - pose proof (closest_angle1_nonneg_diff a b H). lra.
  - rewrite closest_angle1_opp.
    assert (H' : 0 <= a - b) by lra.
    pose proof (closest_angle1_nonneg_diff b a H'). lra.
Qed.

(** A difference of exactly [PI] is mapped to [- PI]. *)
Lemma closest_angle1_pi : closest_angle1 0 PI = - PI.
Proof.
  unfold closest_angle1. cbv zeta.
  pose proof two_pi_val as Hv. pose proof PI_RGT_0.
  replace (PI - 0) with PI by ring.
  rewrite (fmod_small PI) by lra.
  rewrite fmod_second by lra. lra.
Qed.

(** And a difference of exactly [- PI] to [PI]: both ends are reached. *)
Lemma closest_angle1_minus_pi : closest_angle1 PI 0 = PI.
Proof. rewrite closest_angle1_opp, closest_angle1_pi. ring. Qed.

Lemma map2_Forall (P : R -> Prop) f xs ys :
  (forall x y, P (f x y)) -> Forall P (map2 f xs ys).
Proof.
  intros Hf. revert ys.
  induction xs as [|x xs IH]; intros [|y ys]; simpl; auto.
Qed.

Lemma map2_flip f g xs ys :
  (forall x y, f x y = - g y x) ->
  map2 f xs ys = List.map Ropp (map2 g ys xs).
Proof.
  intros Hfg. revert ys.
  induction xs as [|x xs IH]; intros [|y ys]; simpl; try reflexivity.
  rewrite Hfg, IH. reflexivity.
Qed.

Lemma map2_diag_Forall (P : R -> Prop) f xs :
  (forall x, P (f x x)) -> Forall P (map2 f xs xs).
Proof. intros Hf. induction xs; simpl; auto. Qed.

Lemma closest_angle_ok a b :
  shape a = shape b ->
  closest_angle a b = Ok (tmap2 closest_angle1 a b).
Proof. intros Hs. unfold closest_angle. rewrite decide_True; auto. Qed.

(** C2, as stated, fails: for the one-element tensors [0] and [PI] the
    function returns [- PI], which is not strictly greater than [- PI]. *)
Lemma closest_angle_half_open_fails :
  exists t,
    closest_angle (mkTensor [1%nat] [0]) (mkTensor [1%nat] [PI]) = Ok t /\
    ~ Forall (fun x => - PI < x <= PI) (data t).
Proof.
  eexists. split.
  - apply closest_angle_ok. reflexivity.
  - simpl. rewrite closest_angle1_pi. intros HF.
    apply Forall_inv in HF. lra.
Qed.

(** C2 (amended): on tensors of one shape [closest_angle] returns, and
    every element of the result lies in the closed interval [[-PI, PI]];
    the result has the shape of the arguments. *)
Theorem closest_angle_closed_range (a b : Tensor) :
  shape a = shape b ->
  exists t,
    closest_angle a b = Ok t /\
    shape t = shape a /\
    Forall (fun x => - PI <= x <= PI) (data t).
Proof.
  intros Hs. exists (tmap2 closest_angle1 a b).
  split; [by apply closest_angle_ok|]. split; [reflexivity|].
  simpl. apply map2_Forall. intros x y. apply closest_angle1_range.
Qed.

Lemma closest_angle_closed_range_witness :
  exists t,
    closest_angle (mkTensor [2%nat] [0; 1]) (mkTensor [2%nat] [PI; 0]) = Ok t /\
    shape t = [2%nat] /\
    Forall (fun x => - PI <= x <= PI) (data t).
Proof.
  apply (closest_angle_closed_range
           (mkTensor [2%nat] [0; 1]) (mkTensor [2%nat] [PI; 0])).
  reflexivity.
Defined.

(** C7: [closest_angle] is antisymmetric.  On tensors of one shape both
    calls return, the two results have one shape, and each element of
    [closest_angle a b] is the negation of the element of
    [closest_angle b a] at its place; [closest_angle a a] returns a tensor
    of the shape of [a] whose elements are all 0. *)
Theorem closest_angle_antisymmetric (a b : Tensor) :
  shape a = shape b ->
  (exists t u,
      closest_angle a b = Ok t /\ closest_angle b a = Ok u /\
      t = tmap Ropp u) /\
  (exists z,
      closest_angle a a = Ok z /\ shape z = shape a /\
      Forall (fun x => x = 0) (data z)).
Proof.
  intros Hs. split.
  - exists (tmap2 closest_angle1 a b), (tmap2 closest_angle1 b a).
    split; [by apply closest_angle_ok|].
    split; [by apply closest_angle_ok|].
    unfold tmap, tmap2. simpl. rewrite Hs. f_equal.
    apply map2_flip. intros x y. apply closest_angle1_opp.
  - exists (tmap2 closest_angle1 a a).
    split; [by apply closest_angle_ok|]. split; [reflexivity|].
    simpl. apply map2_diag_Forall. intros x. apply closest_angle1_same.
Qed.

Lemma closest_angle_antisymmetric_witness :
  (exists t u,
      closest_angle (mkTensor [2%nat] [0; 1]) (mkTensor [2%nat] [PI; 0]) = Ok t /\
      closest_angle (mkTensor [2%nat] [PI; 0]) (mkTensor [2%nat] [0; 1]) = Ok u /\
      t = tmap Ropp u) /\
  (exists z,
      closest_angle (mkTensor [2%nat] [0; 1]) (mkTensor [2%nat] [0; 1]) = Ok z /\
      shape z = [2%nat] /\
      Forall (fun x => x = 0) (data z)).
Proof.
  apply (closest_angle_antisymmetric
           (mkTensor [2%nat] [0; 1]) (mkTensor [2%nat] [PI; 0])).
  reflexivity.
Defined.

End ErrorFunctionsFacts.

(** ** The closed-loop reward *)

Section CLE_RewardFacts.
Context {SimulationDataset UnrollInputOutput M : Type}.
Context `{!L5MetricSet SimulationDataset UnrollInputOutput M}.
Import CLE_Reward.

Local Abbreviation Self := (CLE_Reward.t M).
Local Abbreviation Store := (Store SimulationDataset UnrollInputOutput Self).

Lemma py_max_Rmax a b : py_max a b = Rmax a b.
Proof.
  unfold py_max, Rmax.
  destruct (Rlt_dec a b), (Rle_dec a b); try reflexivity; lra.
Qed.

Lemma item_weighted_abs w e y :
  item e = Ok y -> item (tmap (Rmult w) (tmap Rabs e)) = Ok (w * Rabs y).
Proof.
  unfold item, tmap. simpl.
  destruct (data e) as [|x [|x' xs]]; intros Hx; inversion Hx; subst.
  reflexivity.
Qed.

Lemma build_simulated_outputs_one
    (ri : RewardInput SimulationDataset UnrollInputOutput) s :
  scene_indices ri = [s] ->
  build_simulated_outputs ri = ([output_for ri s], Some s).
Proof. intros Hs. unfold build_simulated_outputs. rewrite Hs. reflexivity. Qed.

Lemma metric_entry_inv results s name i e :
  metric_entry results s name i = Ok e ->
  exists sm series,
    results !! s = Some sm /\ sm !! name = Some series /\
    tensor_getitem series i = Ok e.
Proof.
  unfold metric_entry, dict_getitem_int, dict_getitem.
  destruct (results !! s) as [sm|] eqn:Hsm; [|discriminate].
  destruct (sm !! name) as [series|] eqn:Hseries; [|discriminate].
  intros He. exists sm, series. repeat split; assumption.
Qed.

Lemma metric_value_inv results s name i d :
  metric_value results s name i = Ok d ->
  exists e, metric_entry results s name i = Ok e /\ item e = Ok d.
Proof.
  unfold metric_value.
  destruct (metric_entry results s name i) as [e|] eqn:He; [|discriminate].
  intros Hd. exists e. split; [reflexivity | assumption].
Qed.

(** One complete run of [get_reward]. *)
Lemma get_reward_run (st : Store) s ms' d ye w yw :
  scene_indices (st_input st) = [s] ->
  ms_evaluate [output_for (st_input st) s] (metric_set (st_self st))
    = (Ok tt, ms') ->
  metric_value (ms_scene_metric_results ms') s "displacement_error_l2"
    (frame_index (st_input st) + 1) = Ok d ->
  metric_entry (ms_scene_metric_results ms') s "yaw_error_ca"
    (frame_index (st_input st) + 1) = Ok ye ->
  yaw_weight (st_self st) = Some w ->
  (truthy (use_yaw (st_self st)) = true ->
   item (tmap (Rmult w) (tmap Rabs ye)) = Ok yw) ->
  get_reward st =
    (Ok (Float
           (let clipped :=
              if enable_clip (st_self st)
              then py_max (- rew_clip_thresh (st_self st)) (- d) else - d in
            if truthy (use_yaw (st_self st)) then clipped - yw else clipped)),
     mkStore (set_stop_error d (set_metric_set ms' (st_self st)))
       (st_input st)).
Proof.
  intros Hs Hev Hd Hy Hw Hyw.
  apply metric_value_inv in Hd as (de & Hde & Hitem).
  apply metric_entry_inv in Hde as (sm & ds & Hsm & Hds & Hde).
  apply metric_entry_inv in Hy as (sm' & ys & Hsm' & Hys & Hye).
  rewrite Hsm in Hsm'. injection Hsm' as <-.
  destruct st as [self ri]. simpl in *.
  unfold get_reward, mbind, Py_bind, py_bind, py_gets, py_assert, py_lift,
    py_modify, py_ret, on_metric_set, put_self. simpl.
  rewrite Hs. simpl.
  rewrite (build_simulated_outputs_one ri s Hs). simpl.
  rewrite Hev. simpl.
  unfold dict_getitem_int, dict_getitem. rewrite Hsm. simpl.
  rewrite Hds. simpl. rewrite Hde. simpl.
  rewrite Hys. simpl. rewrite Hye. simpl. rewrite Hw. simpl.
  rewrite Hitem. simpl.
  destruct (enable_clip self); simpl; rewrite ?Hitem; simpl;
    destruct (truthy (use_yaw self)) eqn:Hu; simpl;
    rewrite ?(Hyw eq_refl); simpl; reflexivity.
Qed.

(** *** Frame reasoning: what a computation leaves unchanged *)

Lemma keeps_ret {S X A} (f : S -> X) (a : A) : keeps f (py_ret a).
Proof. intros st. reflexivity. Qed.

Lemma keeps_lift {S X A} (f : S -> X) (r : result A) : keeps f (py_lift r).
Proof. intros st. reflexivity. Qed.

Lemma keeps_gets {S X A} (f : S -> X) (g : S -> A) : keeps f (py_gets g).
Proof. intros st. reflexivity. Qed.

Lemma keeps_assert {S X} (f : S -> X) (c : bool) : keeps f (py_assert c).
Proof. intros st. destruct c; reflexivity. Qed.

Lemma keeps_modify {S X} (f : S -> X) (g : S -> S) :
  (forall st, f (g st) = f st) -> keeps f (py_modify g).
Proof. intros Hg st. apply Hg. Qed.

Lemma keeps_bind {S X A B} (f : S -> X) (m : Py S A) (k : A -> Py S B) :
  keeps f m -> (forall a, keeps f (k a)) -> keeps f (m ≫= k).
Proof.
  intros Hm Hk st. unfold mbind, Py_bind, py_bind.
  specialize (Hm st). destruct (m st) as [[a|e] st1]; simpl in *.
  - rewrite Hk. exact Hm.
  - exact Hm.
Qed.

Lemma keeps_if {S X A} (f : S -> X) (c : bool) (m1 m2 : Py S A) :
  keeps f m1 -> keeps f m2 -> keeps f (if c then m1 else m2).
Proof. destruct c; auto. Qed.

Lemma keeps_on_metric_set {X A} (f : Store -> X) (m : Py M A) :
  (forall self st, f (put_self self st) = f st) ->
  keeps f (on_metric_set m st_self put_self).
Proof.
  intros Hput st. unfold on_metric_set.
  destruct (m (metric_set (st_self st))) as [r ms]. simpl. apply Hput.
Qed.

Ltac keeps_step :=
  first
    [ apply keeps_ret | apply keeps_lift | apply keeps_gets
    | apply keeps_assert
    | apply keeps_if
    | apply keeps_bind; [| intros ?] ].

(** C1: with [use_yaw] false and clipping enabled, a call on one scene
    whose metric read-back succeeds returns exactly
    [max(-rew_clip_thresh, -d)], [d] being the displacement error at index
    [frame_index + 1]; the reward is therefore never below
    [-rew_clip_thresh]. *)
Theorem cle_reward_clipped_without_yaw (st : Store) s ms' d ye w :
  scene_indices (st_input st) = [s] ->
  ms_evaluate [output_for (st_input st) s] (metric_set (st_self st))
    = (Ok tt, ms') ->
  metric_value (ms_scene_metric_results ms') s "displacement_error_l2"
    (frame_index (st_input st) + 1) = Ok d ->
  metric_entry (ms_scene_metric_results ms') s "yaw_error_ca"
    (frame_index (st_input st) + 1) = Ok ye ->
  yaw_weight (st_self st) = Some w ->
  truthy (use_yaw (st_self st)) = false ->
  enable_clip (st_self st) = true ->
  fst (get_reward st)
    = Ok (Float (Rmax (- rew_clip_thresh (st_self st)) (- d))) /\
  - rew_clip_thresh (st_self st)
    <= Rmax (- rew_clip_thresh (st_self st)) (- d).
Proof.
  intros Hs Hev Hd Hy Hw Hyaw Hclip. split.
  - rewrite (get_reward_run st s ms' d ye w 0 Hs Hev Hd Hy Hw).
    + simpl. rewrite Hyaw, Hclip, py_max_Rmax. reflexivity.
    + rewrite Hyaw. discriminate.
  - apply Rmax_l.
Qed.

(** C4: with [use_yaw] true, a call on one scene whose metric read-back
    succeeds returns the negative displacement error, clipped when
    clipping is enabled, minus [yaw_weight] times the absolute value of
    the yaw error at index [frame_index + 1]. *)
Theorem cle_reward_with_yaw (st : Store) s ms' d y w :
  scene_indices (st_input st) = [s] ->
  ms_evaluate [output_for (st_input st) s] (metric_set (st_self st))
    = (Ok tt, ms') ->
  metric_value (ms_scene_metric_results ms') s "displacement_error_l2"
    (frame_index (st_input st) + 1) = Ok d ->
  metric_value (ms_scene_metric_results ms') s "yaw_error_ca"
    (frame_index (st_input st) + 1) = Ok y ->
  yaw_weight (st_self st) = Some w ->
  truthy (use_yaw (st_self st)) = true ->
  fst (get_reward st)
    = Ok (Float
            ((if enable_clip (st_self st)
              then Rmax (- rew_clip_thresh (st_self st)) (- d)
              else - d)
             - w * Rabs y)).
Proof.
  intros Hs Hev Hd Hy Hw Hyaw.
  apply metric_value_inv in Hy as (ye & Hye & Hitem).
  rewrite (get_reward_run st s ms' d ye w (w * Rabs y) Hs Hev Hd Hye Hw).
  - simpl. rewrite Hyaw, py_max_Rmax. reflexivity.
  - intros _. by apply item_weighted_abs.
Qed.

Lemma get_reward_returns_inv (st : Store) r :
  fst (get_reward st) = Ok r ->
  exists s ms' d ye w yw,
    scene_indices (st_input st) = [s] /\
    ms_evaluate [output_for (st_input st) s] (metric_set (st_self st))
      = (Ok tt, ms') /\
    metric_value (ms_scene_metric_results ms') s "displacement_error_l2"
      (frame_index (st_input st) + 1) = Ok d /\
    metric_entry (ms_scene_metric_results ms') s "yaw_error_ca"
      (frame_index (st_input st) + 1) = Ok ye /\
    yaw_weight (st_self st) = Some w /\
    (truthy (use_yaw (st_self st)) = true ->
     item (tmap (Rmult w) (tmap Rabs ye)) = Ok yw).
Proof.
  destruct st as [self ri]. 
  unfold get_reward, mbind, Py_bind, py_bind, py_gets, py_assert, py_lift,
    py_modify, py_ret, on_metric_set, put_self. simpl.
  destruct (scene_indices ri) as [|s [|s' rest]] eqn:Hs; simpl;
    try discriminate.
  rewrite (build_simulated_outputs_one ri s Hs). simpl.
  destruct (ms_evaluate [output_for ri s] (metric_set self))
    as [[[]|e] ms'] eqn:Hev; simpl; try discriminate.
  destruct (dict_getitem_int (ms_scene_metric_results ms') s)
    as [sm|] eqn:Hsm; simpl; try discriminate.
  destruct (dict_getitem sm "displacement_error_l2")
    as [ds|] eqn:Hds; simpl; try discriminate.
  destruct (tensor_getitem ds (frame_index ri + 1))
    as [de|] eqn:Hde; simpl; try discriminate.
  destruct (dict_getitem sm "yaw_error_ca")
    as [ys|] eqn:Hys; simpl; try discriminate.
  destruct (tensor_getitem ys (frame_index ri + 1))
    as [ye|] eqn:Hye; simpl; try discriminate.
  destruct (yaw_weight self) as [w|] eqn:Hw; simpl; try discriminate.
  destruct (item de) as [d|] eqn:Hitem; simpl; try discriminate.
  destruct (truthy (use_yaw self)) eqn:Hu.
  - destruct (item (tmap (Rmult w) (tmap Rabs ye))) as [yw|] eqn:Hyw.
    + intros _. exists s, ms', d, ye, w, yw.
      unfold metric_value, metric_entry.
      rewrite Hsm, Hds, Hde, Hys, Hye. repeat split; auto.
    + destruct (enable_clip self); simpl; rewrite ?Hitem; simpl;
        rewrite Hu; simpl; discriminate.
  - intros _. exists s, ms', d, ye, w, 0.
    unfold metric_value, metric_entry.
    rewrite Hsm, Hds, Hde, Hys, Hye. repeat split; auto. congruence.
Qed.

(** C8: every call that returns has recorded the raw displacement error
    in [stop_error]: the call was on one scene, and [stop_error] is the
    value the displacement series of that scene holds at index
    [frame_index + 1], neither clipped nor reduced by the yaw term.
    [stop_flag] and [stop_thresh] play no part: the call does not read
    them and leaves them as they were. *)
Theorem cle_reward_records_stop_error (st : Store) r :
  fst (get_reward st) = Ok r ->
  let self' := st_self (snd (get_reward st)) in
  exists s d,
    scene_indices (st_input st) = [s] /\
    metric_value (ms_scene_metric_results (metric_set self')) s
      "displacement_error_l2" (frame_index (st_input st) + 1) = Ok d /\
    stop_error self' = Some d /\
    stop_flag self' = stop_flag (st_self st) /\
    stop_thresh self' = stop_thresh (st_self st).
Proof.
  intros Hret.
  apply get_reward_returns_inv in Hret
    as (s & ms' & d & ye & w & yw & Hs & Hev & Hd & Hy & Hw & Hyw).
  rewrite (get_reward_run st s ms' d ye w yw Hs Hev Hd Hy Hw Hyw).
  simpl. exists s, d. repeat split; auto.
Qed.

Lemma dict_getitem_int_raise {V} (d : gmap Z V) k e :
  dict_getitem_int d k = Raise e -> e = KeyError (KInt k).
Proof. unfold dict_getitem_int. destruct (d !! k); congruence. Qed.

Lemma dict_getitem_raise {V} (d : gmap string V) k e :
  dict_getitem d k = Raise e -> e = KeyError (KStr k).
Proof. unfold dict_getitem. destruct (d !! k); congruence. Qed.

Lemma tensor_getitem_raise t i e :
  tensor_getitem t i = Raise e -> e = IndexError.
Proof.
  unfold tensor_getitem. destruct (shape t); [congruence|].
  cbv zeta. destruct (decide _); congruence.
Qed.

Lemma item_raise t e : item t = Raise e -> e = RuntimeError.
Proof. unfold item. destruct (data t) as [|x [|]]; congruence. Qed.

(** After the assertion: the evaluation runs, its effect on the metric
    set is what the call leaves there, and the steps that follow raise no
    [AssertionError]. *)
Lemma get_reward_one_scene (st : Store) s :
  scene_indices (st_input st) = [s] ->
  let ev := ms_evaluate [output_for (st_input st) s]
              (metric_set (st_self st)) in
  metric_set (st_self (snd (get_reward st))) = snd ev /\
  (fst (get_reward st) = Raise AssertionError ->
   fst ev = Raise AssertionError).
Proof.
  intros Hs. destruct st as [self ri]. simpl in *.
  unfold get_reward, mbind, Py_bind, py_bind, py_gets, py_assert, py_lift,
    py_modify, py_ret, on_metric_set, put_self. simpl.
  rewrite Hs. simpl.
  rewrite (build_simulated_outputs_one ri s Hs). simpl.
  destruct (ms_evaluate [output_for ri s] (metric_set self))
    as [[[]|e] ms'] eqn:Hev; simpl;
    [|split; [reflexivity|intros [= ->]; reflexivity]].
  destruct (dict_getitem_int (ms_scene_metric_results ms') s)
    as [sm|] eqn:Hsm; simpl;
    [|split; [reflexivity|intros [= ->]];
      by apply dict_getitem_int_raise in Hsm].
  destruct (dict_getitem sm "displacement_error_l2")
    as [ds|] eqn:Hds; simpl;
    [|split; [reflexivity|intros [= ->]];
      by apply dict_getitem_raise in Hds].
  destruct (tensor_getitem ds (frame_index ri + 1))
    as [de|] eqn:Hde; simpl;
    [|split; [reflexivity|intros [= ->]];
      by apply tensor_getitem_raise in Hde].
  destruct (dict_getitem sm "yaw_error_ca")
    as [ys|] eqn:Hys; simpl;
    [|split; [reflexivity|intros [= ->]];
      by apply dict_getitem_raise in Hys].
  destruct (tensor_getitem ys (frame_index ri + 1))
    as [ye|] eqn:Hye; simpl;
    [|split; [reflexivity|intros [= ->]];
      by apply tensor_getitem_raise in Hye].
  destruct (yaw_weight self) as [w|] eqn:Hw; simpl;
    [|split; [reflexivity|discriminate]].
  destruct (item de) as [d|] eqn:Hitem; simpl;
    [|split; [reflexivity|intros [= ->]];
      by apply item_raise in Hitem].
  destruct (truthy (use_yaw self)) eqn:Hu;
    [destruct (item (tmap (Rmult w) (tmap Rabs ye))) as [yw|] eqn:Hyw|];
    destruct (enable_clip self); simpl; rewrite ?Hitem; simpl;
    rewrite ?Hu; simpl; rewrite ?Hitem; simpl;
    (split; [reflexivity|]); try discriminate;
    intros [= ->]; by apply item_raise in Hyw.
Qed.

(** C3: a call whose [scene_indices] does not have length 1 raises
    [AssertionError] and leaves the store as it was, for every metric
    set: no evaluation has taken place.  With exactly one scene index the
    assertion passes: the metric set the call leaves behind is the one
    [evaluate] produced, and the call raises [AssertionError] only when
    [evaluate] itself does. *)
Theorem cle_get_reward_scene_assertion (st : Store) :
  (length (scene_indices (st_input st)) <> 1%nat ->
   get_reward st = (Raise AssertionError, st)) /\
  (forall s, scene_indices (st_input st) = [s] ->
     metric_set (st_self (snd (get_reward st)))
       = snd (ms_evaluate [output_for (st_input st) s]
                (metric_set (st_self st))) /\
     (fst (get_reward st) = Raise AssertionError ->
      fst (ms_evaluate [output_for (st_input st) s]
             (metric_set (st_self st))) = Raise AssertionError)).
Proof.
  split.
  - intros Hlen.
    unfold get_reward, mbind, Py_bind, py_bind, py_gets, py_assert.
    simpl. rewrite bool_decide_false by exact Hlen. reflexivity.
  - intros s Hs. exact (get_reward_one_scene st s Hs).
Qed.

(** C10: the yaw series is read, indexed and weighted whatever [use_yaw]
    is.  In a call on one scene whose displacement entry is found:
    a metric table without the key ["yaw_error_ca"] makes the call raise
    [KeyError]; a yaw series too short for [frame_index + 1] makes it
    raise [IndexError]; a missing [yaw_weight] makes it raise
    [TypeError].  None of the three depends on [use_yaw]. *)
Theorem cle_reward_reads_yaw_unconditionally (st : Store) s ms' sm ds de :
  scene_indices (st_input st) = [s] ->
  ms_evaluate [output_for (st_input st) s] (metric_set (st_self st))
    = (Ok tt, ms') ->
  ms_scene_metric_results ms' !! s = Some sm ->
  sm !! "displacement_error_l2" = Some ds ->
  tensor_getitem ds (frame_index (st_input st) + 1) = Ok de ->
  (sm !! "yaw_error_ca" = None ->
   fst (get_reward st) = Raise (KeyError (KStr "yaw_error_ca"))) /\
  (forall ys, sm !! "yaw_error_ca" = Some ys ->
     tensor_getitem ys (frame_index (st_input st) + 1) = Raise IndexError ->
     fst (get_reward st) = Raise IndexError) /\
  (forall ys ye, sm !! "yaw_error_ca" = Some ys ->
     tensor_getitem ys (frame_index (st_input st) + 1) = Ok ye ->
     yaw_weight (st_self st) = None ->
     fst (get_reward st) = Raise TypeError).
Proof.
  intros Hs Hev Hsm Hds Hde.
  destruct st as [self ri]. simpl in *.
  unfold get_reward, mbind, Py_bind, py_bind, py_gets, py_assert, py_lift,
    py_modify, py_ret, on_metric_set, put_self. simpl.
  rewrite Hs. simpl.
  rewrite (build_simulated_outputs_one ri s Hs). simpl.
  rewrite Hev. simpl.
  unfold dict_getitem_int, dict_getitem. rewrite Hsm. simpl.
  rewrite Hds. simpl. rewrite Hde. simpl.
  split; [|split].
  - intros ->. reflexivity.
  - intros ys -> Hye. simpl. rewrite Hye. reflexivity.
  - intros ys ye -> Hye ->. simpl. rewrite Hye. reflexivity.
Qed.
End CLE_RewardFacts.

(** ** The open-loop reward *)

Section OLE_RewardFacts.
Context {SimulationDataset UnrollInputOutput : Type}.
Import OLE_Reward.

Local Abbreviation OStore :=
  (Store SimulationDataset UnrollInputOutput OLE_Reward.t).

Lemma map2_length (f : R -> R -> R) xs ys :
  length xs = length ys -> length (map2 f xs ys) = length xs.
Proof.
  revert ys. induction xs as [|x xs IH]; intros [|y ys] Hlen; simpl in *;
    try discriminate; auto.
Qed.

Lemma Rsum_squares_of_differences xs ys :
  Rsum (List.map (fun x => x * x) (map2 Rminus xs ys))
    = sum_squared_differences xs ys.
Proof.
  revert ys. induction xs as [|x xs IH]; intros [|y ys]; simpl;
    try reflexivity.
  rewrite IH. reflexivity.
Qed.

Lemma sum_squared_differences_nonneg xs ys :
  0 <= sum_squared_differences xs ys.
Proof.
  revert ys. induction xs as [|x xs IH]; intros [|y ys]; simpl; try lra.
  pose proof (Rle_0_sqr (x - y)). specialize (IH ys). lra.
Qed.

Lemma sum_squared_differences_diag xs : sum_squared_differences xs xs = 0.
Proof.
  induction xs as [|x xs IH]; simpl; [reflexivity|].
  rewrite IH. unfold Rsqr. ring.
Qed.

Lemma broadcast_dim_same x : broadcast_dim x x = Some x.
Proof. unfold broadcast_dim. by rewrite decide_True. Qed.

Lemma broadcast_shapes_rev_same s : broadcast_shapes_rev s s = Some s.
Proof.
  induction s as [|d s IH]; simpl; [reflexivity|].
  by rewrite broadcast_dim_same, IH.
Qed.

Lemma broadcast_shapes_same s : broadcast_shapes s s = Some s.
Proof.
  unfold broadcast_shapes. rewrite broadcast_shapes_rev_same. simpl.
  by rewrite rev_involutive.
Qed.

Lemma chunks_concat k n xs :
  length xs = (n * k)%nat -> concat (chunks k n xs) = xs.
Proof.
  revert xs. induction n as [|n IH]; intros xs Hlen; simpl in *.
  - symmetry. by apply nil_length_inv.
  - rewrite IH; [apply take_drop|]. rewrite length_drop. lia.
Qed.

Lemma chunks_lengths k n xs :
  length xs = (n * k)%nat ->
  Forall (fun c => length c = k) (chunks k n xs).
Proof.
  revert xs. induction n as [|n IH]; intros xs Hlen; simpl in *.
  - constructor.
  - constructor.
    + rewrite length_take. lia.
    + apply IH. rewrite length_drop. lia.
Qed.

(** Laying an array out at its own shape changes nothing. *)
Lemma expand_same s xs : length xs = numel s -> expand s s xs = xs.
Proof.
  revert xs. induction s as [|d s IH]; intros xs Hlen; simpl in *;
    [reflexivity|].
  rewrite decide_True by reflexivity.
  rewrite <- (chunks_concat (numel s) d xs) at 2 by exact Hlen.
  f_equal.
  pose proof (chunks_lengths (numel s) d xs Hlen) as HF.
  induction HF as [|c cs Hc _ IHcs]; simpl; [reflexivity|].
  by rewrite IH, IHcs.
Qed.

Lemma broadcast_to_same a : well_formed a -> broadcast_to a (shape a) = a.
Proof.
  intros Hwf. unfold broadcast_to. rewrite Nat.sub_diag. simpl.
  rewrite expand_same by exact Hwf. by destruct a.
Qed.

(** On operands of one shape the subtraction is elementwise. *)
Lemma np_sub_same_shape a b :
  shape a = shape b -> well_formed a -> well_formed b ->
  np_sub a b = Ok (tmap2 Rminus a b).
Proof.
  intros Hs Ha Hb. unfold np_sub.
  rewrite <- Hs, broadcast_shapes_same.
  rewrite (broadcast_to_same a Ha).
  rewrite Hs, (broadcast_to_same b Hb). reflexivity.
Qed.

(** The three array operations of the source against the spec's formula. *)
Lemma np_mean_square_sub p t :
  shape p = shape t -> well_formed p -> well_formed t -> data p <> [] ->
  np_mean (np_square (tmap2 Rminus p t))
    = Float (mean_squared_error_spec p t).
Proof.
  intros Hs Hp Ht Hne. unfold np_mean, np_square, tmap, tmap2. simpl.
  assert (Hlen : length (data p) = length (data t)).
  { unfold well_formed in *. rewrite Hp, Ht, Hs. reflexivity. }
  assert (Hl : length (List.map (fun x => x * x) (map2 Rminus (data p) (data t)))
               = numel (shape p)).
  { rewrite length_map, map2_length by exact Hlen. exact Hp. }
  destruct (List.map (fun x => x * x) (map2 Rminus (data p) (data t)))
    as [|z zs] eqn:Hz.
  - exfalso. apply Hne. apply nil_length_inv.
    rewrite Hp, <- Hl. reflexivity.
  - rewrite Hl, <- Hz, Rsum_squares_of_differences. reflexivity.
Qed.

Lemma ole_get_reward_run (st : OStore) p t :
  ego_output_dict (st_input st) !! "positions" = Some p ->
  ego_input_dict (st_input st) !! "target_positions" = Some t ->
  shape p = shape t -> well_formed p -> well_formed t ->
  get_reward st
    = (Ok (float_neg (np_mean (np_square (tmap2 Rminus p t)))), st).
Proof.
  intros Hp Ht Hs Hwp Hwt.
  unfold get_reward, mbind, Py_bind, py_bind, py_gets, py_lift, py_ret.
  simpl. unfold dict_getitem. rewrite Hp, Ht. simpl.
  rewrite (np_sub_same_shape p t Hs Hwp Hwt). reflexivity.
Qed.


(** Without elements there is no mean: the reward of two empty arrays is
    nan, identical or not. *)
Lemma ole_reward_empty_is_nan (st : OStore) p t :
  ego_output_dict (st_input st) !! "positions" = Some p ->
  ego_input_dict (st_input st) !! "target_positions" = Some t ->
  shape p = shape t -> well_formed p -> well_formed t -> data p = [] ->
  fst (get_reward st) = Ok NaN.
Proof.
  intros Hp Ht Hs Hwp Hwt He.
  rewrite (ole_get_reward_run st p t Hp Ht Hs Hwp Hwt).
  unfold np_mean, np_square, tmap, tmap2. simpl. rewrite He. reflexivity.
Qed.

Lemma ole_get_reward_keeps_store :
  keeps (fun st : OStore => st) get_reward.
Proof.
  unfold get_reward.
  repeat first
    [ apply keeps_ret | apply keeps_lift | apply keeps_gets
    | apply keeps_bind; [| intros ?] ].
Qed.

End OLE_RewardFacts.

(** ** What [get_reward] does to its input *)

Section RewardFrame.
Context {SimulationDataset UnrollInputOutput Out M : Type}.
Context `{!ByReference.Collaborators SimulationDataset UnrollInputOutput Out M}.

Local Abbreviation RewardInput := (RewardInput SimulationDataset UnrollInputOutput).
Local Abbreviation Handed :=
  (ByReference.Handed SimulationDataset UnrollInputOutput).
Local Abbreviation CStore :=
  (Store SimulationDataset UnrollInputOutput (CLE_Reward.t M)).
Local Abbreviation handed := ByReference.handed.
Local Abbreviation hand_back := ByReference.hand_back.
Local Abbreviation kept_back := ByReference.kept_back.
Local Abbreviation on_handed := ByReference.on_handed.
Local Abbreviation on_metric_set_handed := ByReference.on_metric_set_handed.
Local Abbreviation build_simulated_outputs :=
  ByReference.build_simulated_outputs.
Local Abbreviation SimulationOutputCLE_init :=
  ByReference.SimulationOutputCLE_init.
Local Abbreviation evaluate := ByReference.evaluate.
Local Abbreviation get_reward := ByReference.get_reward.

Lemma hand_back_handed (ri : RewardInput) : hand_back (handed ri) ri = ri.
Proof. destruct ri; reflexivity. Qed.

Lemma kept_back_hand_back (h : Handed) (ri : RewardInput) :
  kept_back (hand_back h ri) = kept_back ri.
Proof. reflexivity. Qed.

Lemma keeps_on_handed {X A} (f : RewardInput -> X) (m : Py Handed A) :
  (forall ri, f (hand_back (snd (m (handed ri))) ri) = f ri) ->
  keeps (fun st : CStore => f (st_input st)) (on_handed m).
Proof.
  intros Hm st. unfold ByReference.on_handed.
  specialize (Hm (st_input st)).
  destruct (m (handed (st_input st))) as [r h]. exact Hm.
Qed.

Lemma keeps_on_metric_set_handed {X A} (f : RewardInput -> X)
    (m : Py (M * Handed) A) :
  (forall ms ri, f (hand_back (snd (snd (m (ms, handed ri)))) ri) = f ri) ->
  keeps (fun st : CStore => f (st_input st)) (on_metric_set_handed m).
Proof.
  intros Hm st. unfold ByReference.on_metric_set_handed.
  specialize (Hm (CLE_Reward.metric_set (st_self st)) (st_input st)).
  destruct (m (CLE_Reward.metric_set (st_self st), handed (st_input st)))
    as [r [ms h]]. exact Hm.
Qed.

Lemma keeps_build_simulated_outputs {X} (f : RewardInput -> X) :
  (forall idx ri,
     f (hand_back (snd (SimulationOutputCLE_init idx (handed ri))) ri) = f ri) ->
  forall scene_indices simulated_outputs last,
    keeps (fun st : CStore => f (st_input st))
      (build_simulated_outputs scene_indices simulated_outputs last).
Proof.
  intros Hinit scene_indices.
  induction scene_indices as [|scene_idx rest IH]; intros outs last.
  - apply keeps_ret.
  - cbn [ByReference.build_simulated_outputs].
    apply keeps_bind.
    + apply keeps_on_handed. apply Hinit.
    + intros out. apply IH.
Qed.

(** Whatever part of the input the two collaborators leave as it was,
    [get_reward] leaves as it was: none of its own statements writes to
    the input. *)
Lemma get_reward_keeps_what_collaborators_keep {X} (f : RewardInput -> X) :
  (forall idx ri,
     f (hand_back (snd (SimulationOutputCLE_init idx (handed ri))) ri) = f ri) ->
  (forall outs ms ri,
     f (hand_back (snd (snd (evaluate outs (ms, handed ri)))) ri) = f ri) ->
  keeps (fun st : CStore => f (st_input st)) get_reward.
Proof.
  intros Hinit Heval. unfold ByReference.get_reward.
  apply keeps_bind; [apply keeps_gets|]. intros ri.
  apply keeps_bind; [apply keeps_assert|]. intros _.
  apply keeps_bind; [apply keeps_build_simulated_outputs; exact Hinit|].
  intros [outs idx].
  apply keeps_bind; [apply keeps_on_metric_set_handed; apply Heval|].
  intros _.
  repeat first
    [ apply keeps_ret | apply keeps_lift | apply keeps_gets
    | apply keeps_if
    | apply keeps_bind; [| intros ?] ].
  apply keeps_modify. reflexivity.
Qed.


End RewardFrame.

(** *** Collaborators that act on the metric set only *)

Section OwnState.
Context {SimulationDataset UnrollInputOutput M : Type}.
Context `{!L5MetricSet SimulationDataset UnrollInputOutput M}.

Local Abbreviation Store :=
  (Store SimulationDataset UnrollInputOutput (CLE_Reward.t M)).

Lemma build_simulated_outputs_of_metric_set (st : Store) :
  forall scene_indices simulated_outputs last,
    @ByReference.build_simulated_outputs _ _ _ _ ByReference.of_metric_set
      scene_indices simulated_outputs last st =
    (Ok (fold_left
           (fun acc scene_idx =>
              (fst acc ++ [CLE_Reward.output_for (st_input st) scene_idx],
               Some scene_idx))
           scene_indices (simulated_outputs, last)), st).
Proof.
  destruct st as [self [fi si sd e a eo ei]].
  intros scene_indices.
  induction scene_indices as [|scene_idx rest IH]; intros outs last.
  - reflexivity.
  - cbn [ByReference.build_simulated_outputs fold_left].
    unfold mbind, Py_bind, py_bind. cbn. apply IH.
Qed.

(** With such collaborators the run of [get_reward] is the run of
    [CLE_Reward.get_reward]: result and store are the same. *)
Lemma get_reward_of_metric_set (st : Store) :
  @ByReference.get_reward _ _ _ _ ByReference.of_metric_set st =
  CLE_Reward.get_reward st.
Proof.
  destruct st as [self ri].
  unfold ByReference.get_reward, CLE_Reward.get_reward.
  unfold mbind, Py_bind, py_bind, py_gets. cbn beta iota. cbn [st_input].
  destruct (bool_decide (length (scene_indices ri) = 1%nat));
    cbn [py_assert py_ret py_raise]; [|reflexivity].
  rewrite build_simulated_outputs_of_metric_set. cbn [st_input].
  unfold CLE_Reward.build_simulated_outputs.
  destruct (fold_left _ _ _) as [outs idx].
  unfold ByReference.on_metric_set_handed, CLE_Reward.on_metric_set.
  cbn [ByReference.evaluate ByReference.of_metric_set fst snd st_self st_input].
  destruct (ms_evaluate outs (CLE_Reward.metric_set self)) as [r ms].
  rewrite hand_back_handed. unfold CLE_Reward.put_self. cbn [st_input].
  destruct r; reflexivity.
Qed.

End OwnState.

(** ** The aggregation utility *)

Section CleUtilsFacts.
Context {SceneValidation : Type}.
Variable aggregate :
  gmap Z SceneValidation -> result (list (string * Tensor)).
Import CleUtils.

Local Abbreviation World := (CleUtils.World SceneValidation).

Lemma add_rows_spec agg_log table rows' :
  length (field_names table) = 2%nat ->
  Forall2 count_row agg_log rows' ->
  add_rows agg_log table
    = Ok (mkPrettyTable (field_names table) (rows table ++ rows')).
Proof.
  intros Hw HF. revert table Hw.
  induction HF as [|[name count] row agg_log rows' (c & Hc & ->) _ IH];
    intros table Hw; simpl.
  - rewrite app_nil_r. by destruct table.
  - simpl in Hc. rewrite Hc. unfold add_row. simpl.
    rewrite decide_True by (symmetry; exact Hw).
    rewrite IH by exact Hw. simpl. by rewrite <- app_assoc.
Qed.

(** X16: when the aggregator raises, nothing else happens: the evaluator
    is not reset and nothing is printed. *)
Lemma aggregate_cle_metrics_aggregator_raises (w : World) e :
  aggregate (ClosedLoopEvaluator.validation_results (cle_evaluator w)) = Raise e ->
  aggregate_cle_metrics aggregate w = (Raise e, w).
Proof.
  intros Hagg.
  unfold aggregate_cle_metrics, mbind, Py_bind, py_bind. cbv zeta.
  rewrite Hagg. reflexivity.
Qed.

(** C6: once the aggregator has returned its counts for the validation
    results the evaluator held at the call, the evaluator that
    [aggregate_cle_metrics] leaves behind has an empty validation-results
    store; and when every count tensor holds one value, the call returns
    after printing one table whose rows are those counts, the ones
    computed before the reset. *)
Theorem aggregate_cle_metrics_resets_after_counting (w : World) agg_log :
  aggregate (ClosedLoopEvaluator.validation_results (cle_evaluator w)) = Ok agg_log ->
  ClosedLoopEvaluator.validation_results
    (cle_evaluator (snd (aggregate_cle_metrics aggregate w))) = ∅ /\
  (forall rows, Forall2 count_row agg_log rows ->
     aggregate_cle_metrics aggregate w
       = (Ok tt,
          mkWorld (ClosedLoopEvaluator.reset (cle_evaluator w))
            (stdout w
               ++ [mkPrettyTable ["metric"; "log_replayed agents"] rows]))).
Proof.
  intros Hagg.
  unfold aggregate_cle_metrics, mbind, Py_bind, py_bind, py_modify, py_lift.
  cbv zeta. rewrite Hagg. simpl. split.
  - destruct (add_rows agg_log _) as [table|e]; reflexivity.
  - intros rows HF.
    rewrite (add_rows_spec agg_log
               (mkPrettyTable ["metric"; "log_replayed agents"] [])
               rows eq_refl HF).
    reflexivity.
Qed.

End CleUtilsFacts.

(** ** The model on concrete data *)

Section Examples.
Import Fixture.

(** Indexing and broadcasting as torch and numpy do them. *)
Example tensor_getitem_last :
  tensor_getitem (mkTensor [3%nat] [0; 20; 4]) (-1) = Ok (mkTensor [] [4]).
Proof. reflexivity. Qed.

Example tensor_getitem_row :
  tensor_getitem (mkTensor [2; 2]%nat [1; 2; 3; 4]) 1
    = Ok (mkTensor [2%nat] [3; 4]).
Proof. reflexivity. Qed.

Example tensor_getitem_past_the_end :
  tensor_getitem (mkTensor [3%nat] [0; 20; 4]) 3 = Raise IndexError.
Proof. reflexivity. Qed.

Example np_sub_broadcasts_a_row :
  np_sub (mkTensor [2; 2]%nat [1; 2; 3; 4]) (mkTensor [2%nat] [10; 20])
    = Ok (mkTensor [2; 2]%nat [1 - 10; 2 - 20; 3 - 10; 4 - 20]).
Proof. reflexivity. Qed.

Example np_sub_broadcasts_both :
  np_sub (mkTensor [2; 1]%nat [1; 2]) (mkTensor [1; 2]%nat [10; 20])
    = Ok (mkTensor [2; 2]%nat [1 - 10; 1 - 20; 2 - 10; 2 - 20]).
Proof. reflexivity. Qed.

Example np_sub_refuses_other_shapes :
  np_sub (mkTensor [2%nat] [1; 2]) (mkTensor [3%nat] [1; 2; 3])
    = Raise ValueError.
Proof. reflexivity. Qed.

(** The spec's example: threshold 15, displacement error 20, no yaw
    penalty; the reward is -15. *)
Lemma cle_reward_clipped_without_yaw_witness :
  fst (CLE_Reward.get_reward (mkStore reward_no_yaw (input_at 0 [7%Z])))
    = Ok (Float (Rmax (- 15) (- 20))) /\
  - 15 <= Rmax (- 15) (- 20).
Proof.
  apply (cle_reward_clipped_without_yaw
           (mkStore reward_no_yaw (input_at 0 [7%Z])) 7%Z
           (mkReplay 1 {[ 7%Z := scene7 ]}) 20 (mkTensor [] [-2]) 3.0);
    reflexivity.
Defined.

Example cle_reward_spec_example :
  fst (CLE_Reward.get_reward (mkStore reward_no_yaw (input_at 0 [7%Z])))
    = Ok (Float (- 15)).
Proof.
  rewrite (get_reward_run (mkStore reward_no_yaw (input_at 0 [7%Z])) 7%Z
             (mkReplay 1 {[ 7%Z := scene7 ]}) 20 (mkTensor [] [-2]) 3.0 0);
    try reflexivity; [|discriminate].
  simpl. rewrite py_max_Rmax, Rmax_left by lra. reflexivity.
Qed.

Lemma cle_reward_with_yaw_witness :
  fst (CLE_Reward.get_reward (mkStore reward_default (input_at 0 [7%Z])))
    = Ok (Float (Rmax (- 15) (- 20) - 3.0 * Rabs (- 2))).
Proof.
  apply (cle_reward_with_yaw
           (mkStore reward_default (input_at 0 [7%Z])) 7%Z
           (mkReplay 1 {[ 7%Z := scene7 ]}) 20 (-2) 3.0);
    reflexivity.
Defined.

Lemma cle_reward_records_stop_error_witness :
  let st := mkStore reward_default (input_at 0 [7%Z]) in
  let self' := st_self (snd (CLE_Reward.get_reward st)) in
  exists s d,
    scene_indices (st_input st) = [s] /\
    metric_value (ms_scene_metric_results (CLE_Reward.metric_set self')) s
      "displacement_error_l2" (frame_index (st_input st) + 1) = Ok d /\
    CLE_Reward.stop_error self' = Some d /\
    CLE_Reward.stop_flag self' = CLE_Reward.stop_flag (st_self st) /\
    CLE_Reward.stop_thresh self' = CLE_Reward.stop_thresh (st_self st).
Proof.
  apply (cle_reward_records_stop_error
           (mkStore reward_default (input_at 0 [7%Z]))
           (Float (py_max (- 15) (- 20) - 3.0 * Rabs (- 2)))).
  reflexivity.
Defined.

(** Two scene indices: the assertion fails and the metric set has not
    counted an evaluation.  One scene index: it has counted one. *)
Lemma cle_get_reward_scene_assertion_witness :
  CLE_Reward.get_reward (mkStore reward_default (input_at 0 [7%Z; 8%Z]))
    = (Raise AssertionError, mkStore reward_default (input_at 0 [7%Z; 8%Z])) /\
  evaluations
    (CLE_Reward.metric_set
       (st_self (snd (CLE_Reward.get_reward
                        (mkStore reward_default (input_at 0 [7%Z]))))))
    = 1%nat.
Proof.
  split.
  - apply (proj1 (cle_get_reward_scene_assertion
                    (mkStore reward_default (input_at 0 [7%Z; 8%Z])))).
    simpl. discriminate.
  - rewrite (proj1 (proj2 (cle_get_reward_scene_assertion
                             (mkStore reward_default (input_at 0 [7%Z])))
                      7%Z eq_refl)).
    reflexivity.
Defined.

(** Without the yaw metric the call fails although [use_yaw] is off. *)
Lemma cle_reward_reads_yaw_unconditionally_witness :
  CLE_Reward.use_yaw reward_without_yaw_metric = Some false /\
  fst (CLE_Reward.get_reward
         (mkStore reward_without_yaw_metric (input_at 0 [7%Z])))
    = Raise (KeyError (KStr "yaw_error_ca")).
Proof.
  split; [reflexivity|].
  apply (cle_reward_reads_yaw_unconditionally
           (mkStore reward_without_yaw_metric (input_at 0 [7%Z])) 7%Z
           (mkReplay 1 {[ 7%Z := scene7_without_yaw ]}) scene7_without_yaw
           (mkTensor [3%nat] [0; 20; 4]) (mkTensor [] [20]));
    reflexivity.
Defined.


(** Identical positions: the reward is 0. *)
Example ole_reward_identical_positions :
  fst (OLE_Reward.get_reward
         (mkStore OLE_Reward.init_default
            (mkRewardInput 0 [7%Z] tt ∅ ∅
               {[ "positions" := predicted ]}
               {[ "target_positions" := predicted ]}
             : RewardInput unit unit)))
    = Ok (Float 0).
Proof.
  rewrite (ole_get_reward_run _ predicted predicted) by reflexivity.
  rewrite np_mean_square_sub; try reflexivity; [|discriminate].
  simpl. do 2 f_equal. unfold mean_squared_error_spec.
  rewrite sum_squared_differences_diag. unfold Rdiv. ring.
Qed.

Lemma aggregate_cle_metrics_resets_after_counting_witness :
  ClosedLoopEvaluator.validation_results
    (CleUtils.cle_evaluator
       (snd (CleUtils.aggregate_cle_metrics count_scenes evaluated_world)))
    = ∅ /\
  (forall rows,
     Forall2 count_row [("scenes", mkTensor [] [INR 1])] rows ->
     CleUtils.aggregate_cle_metrics count_scenes evaluated_world
       = (Ok tt,
          CleUtils.mkWorld
            (ClosedLoopEvaluator.reset
               (CleUtils.cle_evaluator evaluated_world))
            (CleUtils.stdout evaluated_world
               ++ [CleUtils.mkPrettyTable
                     ["metric"; "log_replayed agents"] rows]))).
Proof.
  apply (aggregate_cle_metrics_resets_after_counting count_scenes
           evaluated_world [("scenes", mkTensor [] [INR 1])]).
  reflexivity.
Defined.



End Examples.

(** ** More on the error functions *)

Section ErrorFunctionsMore.
Import ErrorFunctions.

Lemma map2_lookup (f : R -> R -> R) xs ys i x y :
  xs !! i = Some x -> ys !! i = Some y -> map2 f xs ys !! i = Some (f x y).
Proof.
  revert ys i. induction xs as [|x0 xs IH]; intros [|y0 ys] [|i] Hx Hy;
    simpl in *; try discriminate.
  - congruence.
  - by apply IH.
Qed.

Lemma map2_ext_lookup (f g : R -> R -> R) xs ys :
  (forall i x y, xs !! i = Some x -> ys !! i = Some y -> f x y = g x y) ->
  map2 f xs ys = map2 g xs ys.
Proof.
  revert ys. induction xs as [|x xs IH]; intros [|y ys] Hfg; simpl;
    try reflexivity.
  f_equal.
  - by apply (Hfg 0%nat).
  - apply IH. intros i x' y' Hx Hy. by apply (Hfg (S i)).
Qed.

(** The result differs from [b - a] by a whole number of turns. *)
Lemma closest_angle1_congruent a b :
  exists k : Z, closest_angle1 a b = b - a + IZR k * (2 * PI).
Proof.
  unfold closest_angle1, fmod. cbv zeta. rewrite two_pi_val.
  set (d := b - a).
  set (k1 := Ztrunc (d / (2 * PI))).
  set (k2 := Ztrunc (2.0 * (d - 2 * PI * IZR k1) / (2 * PI))).
  exists (- (k1 + k2))%Z. rewrite opp_IZR, plus_IZR. lra.
Qed.

(** A difference strictly inside a half turn comes back unchanged. *)
Lemma closest_angle1_small a b :
  - PI < b - a < PI -> closest_angle1 a b = b - a.
Proof.
  assert (Hpos : forall x y, 0 <= y - x < PI -> closest_angle1 x y = y - x).
  { intros x y Hd. unfold closest_angle1. cbv zeta.
    pose proof two_pi_val as Hv.
    rewrite (fmod_small (y - x)) by lra.
    rewrite fmod_small by lra. lra. }
  intros Hd. destruct (Rle_dec 0 (b - a)) as [H|H].
  - apply Hpos. lra.
  - rewrite closest_angle1_opp, Hpos by lra. ring.
Qed.

(** X1: [closest_angle] returns the difference [b - a] up to whole turns:
    on tensors of one shape, the element of the result at any place is
    the difference of the arguments' elements there plus an integer
    multiple of [2 * PI]. *)
Theorem closest_angle_congruent_mod_turn (a b : Tensor) :
  shape a = shape b ->
  exists t,
    closest_angle a b = Ok t /\
    forall i x y,
      data a !! i = Some x -> data b !! i = Some y ->
      exists k : Z, data t !! i = Some (y - x + IZR k * (2 * PI)).
Proof.
  intros Hs. exists (tmap2 closest_angle1 a b).
  split; [by apply closest_angle_ok|].
  intros i x y Hx Hy. simpl.
  destruct (closest_angle1_congruent x y) as [k Hk].
  exists k. rewrite <- Hk. by apply map2_lookup.
Qed.

(** X2: when every pair of angles differs by less than a half turn,
    [closest_angle] is plain subtraction: it returns [b - a]. *)
Theorem closest_angle_small_difference (a b : Tensor) :
  shape a = shape b ->
  (forall i x y,
     data a !! i = Some x -> data b !! i = Some y -> - PI < y - x < PI) ->
  closest_angle a b = Ok (tmap2 (fun x y => y - x) a b).
Proof.
  intros Hs Hd. rewrite (closest_angle_ok a b Hs).
  unfold tmap2. do 2 f_equal.
  apply map2_ext_lookup. intros i x y Hx Hy.
  apply closest_angle1_small. by apply (Hd i).
Qed.

(** *** [l2_error] *)

Lemma torch_sub_same_shape a b :
  shape a = shape b -> well_formed a -> well_formed b ->
  torch_sub a b = Ok (tmap2 Rminus a b).
Proof.
  intros Hs Ha Hb. unfold torch_sub.
  rewrite <- Hs, broadcast_shapes_same.
  rewrite (broadcast_to_same a Ha).
  rewrite Hs, (broadcast_to_same b Hb). reflexivity.
Qed.

Lemma length_chunks k n xs : length (chunks k n xs) = n.
Proof. revert xs. induction n as [|n IH]; intros xs; simpl; auto. Qed.

Lemma chunks_map (f : R -> R) k n xs :
  chunks k n (List.map f xs) = List.map (List.map f) (chunks k n xs).
Proof.
  revert xs. induction n as [|n IH]; intros xs; simpl; [reflexivity|].
  change (List.map f) with (fmap (M := list) f).
  rewrite <- fmap_take, <- fmap_drop.
  change (fmap (M := list) f) with (List.map f). by rewrite IH.
Qed.

(** The norm sees the elements through their squares only. *)
Lemma norm_last_dim_squares t u :
  shape t = shape u ->
  List.map (fun x => x * x) (data t) = List.map (fun x => x * x) (data u) ->
  norm_last_dim t = norm_last_dim u.
Proof.
  intros Hs Hd. unfold norm_last_dim. rewrite Hs. f_equal.
  rewrite <- !(List.map_map (List.map (fun x => x * x))
                (fun run => sqrt (Rsum run))).
  by rewrite <- !chunks_map, Hd.
Qed.

Lemma Forall_map_intro {A B} (P : B -> Prop) (f : A -> B) l :
  Forall (fun x => P (f x)) l -> Forall P (List.map f l).
Proof. induction 1; simpl; constructor; auto. Qed.

Lemma norm_last_dim_nonneg t : Forall (fun x => 0 <= x) (data (norm_last_dim t)).
Proof.
  unfold norm_last_dim. simpl. apply Forall_map_intro.
  apply Forall_true. intros run. apply sqrt_pos.
Qed.

Lemma chunks_Forall (P : R -> Prop) k n xs :
  Forall P xs -> Forall (Forall P) (chunks k n xs).
Proof.
  revert xs. induction n as [|n IH]; intros xs HP; simpl; constructor.
  - by apply Forall_take.
  - apply IH. by apply Forall_drop.
Qed.

Lemma Rsum_squares_zero xs :
  Forall (fun x => x = 0) xs -> Rsum (List.map (fun x => x * x) xs) = 0.
Proof.
  induction 1 as [|x xs -> _ IH]; simpl; [reflexivity|]. rewrite IH. ring.
Qed.

Lemma map2_minus_diag xs : Forall (fun x => x = 0) (map2 Rminus xs xs).
Proof. apply map2_diag_Forall. intros x. ring. Qed.

Lemma map2_minus_shift xs ys vs :
  length xs = length vs -> length ys = length vs ->
  map2 Rminus (map2 Rplus xs vs) (map2 Rplus ys vs) = map2 Rminus xs ys.
Proof.
  revert ys vs. induction xs as [|x xs IH]; intros [|y ys] [|v vs] Hx Hy;
    simpl in *; try discriminate; try reflexivity.
  f_equal; [ring|]. apply IH; congruence.
Qed.

(** X3: on two well-formed tensors of one shape [l2_error] returns one
    value per run along the last dimension (the shape of the result is
    the shape of the arguments without its last dimension), and no value
    is negative. *)
Theorem l2_error_shape_and_sign (pred gt : Tensor) :
  shape pred = shape gt -> well_formed pred -> well_formed gt ->
  exists t,
    l2_error pred gt = Ok t /\
    shape t = removelast (shape pred) /\
    well_formed t /\
    Forall (fun x => 0 <= x) (data t).
Proof.
  intros Hs Hp Hg. unfold l2_error.
  rewrite (torch_sub_same_shape pred gt Hs Hp Hg).
  eexists. split; [reflexivity|]. split; [reflexivity|]. split.
  - unfold well_formed, norm_last_dim. simpl.
    by rewrite length_map, length_chunks.
  - apply norm_last_dim_nonneg.
Qed.

(** X4: the error of a tensor against itself is 0 in every row. *)
Theorem l2_error_of_equal_is_zero (pred : Tensor) :
  well_formed pred ->
  exists t,
    l2_error pred pred = Ok t /\
    shape t = removelast (shape pred) /\
    Forall (fun x => x = 0) (data t).
Proof.
  intros Hp. unfold l2_error.
  rewrite (torch_sub_same_shape pred pred eq_refl Hp Hp).
  eexists. split; [reflexivity|]. split; [reflexivity|].
  unfold norm_last_dim. simpl. apply Forall_map_intro.
  eapply Forall_impl.
  - apply (chunks_Forall (fun x => x = 0)). apply map2_minus_diag.
  - intros run Hrun. simpl. rewrite (Rsum_squares_zero run Hrun).
    apply sqrt_0.
Qed.

(** X5: [l2_error] is symmetric in its two arguments. *)
Theorem l2_error_symmetric (pred gt : Tensor) :
  shape pred = shape gt -> well_formed pred -> well_formed gt ->
  l2_error pred gt = l2_error gt pred.
Proof.
  intros Hs Hp Hg. unfold l2_error.
  rewrite (torch_sub_same_shape pred gt Hs Hp Hg).
  rewrite (torch_sub_same_shape gt pred (eq_sym Hs) Hg Hp).
  f_equal. apply norm_last_dim_squares; [exact Hs|]. simpl.
  rewrite (map2_flip Rminus Rminus (data pred) (data gt))
    by (intros x y; ring).
  rewrite List.map_map. apply List.map_ext. intros x. ring.
Qed.

(** X6: [l2_error] does not change when one tensor of the arguments'
    shape is added to both of them. *)
Theorem l2_error_translation_invariant (pred gt shift : Tensor) :
  shape pred = shape gt -> shape pred = shape shift ->
  well_formed pred -> well_formed gt -> well_formed shift ->
  l2_error (tmap2 Rplus pred shift) (tmap2 Rplus gt shift)
    = l2_error pred gt.
Proof.
  intros Hs Hv Hp Hg Hsh.
  assert (Hlp : length (data pred) = length (data shift)).
  { unfold well_formed in *. by rewrite Hp, Hsh, Hv. }
  assert (Hlg : length (data gt) = length (data shift)).
  { unfold well_formed in *. by rewrite Hg, Hsh, <- Hs, Hv. }
  unfold l2_error.
  rewrite (torch_sub_same_shape pred gt Hs Hp Hg).
  rewrite torch_sub_same_shape.
  - f_equal. apply norm_last_dim_squares; [reflexivity|]. simpl.
    by rewrite map2_minus_shift.
  - exact Hs.
  - unfold well_formed. simpl. by rewrite map2_length.
  - unfold well_formed. simpl. by rewrite map2_length.
Qed.

End ErrorFunctionsMore.

(** ** More on the closed-loop reward *)

Section CLE_RewardMore.
Context {SimulationDataset UnrollInputOutput M : Type}.
Context `{!L5MetricSet SimulationDataset UnrollInputOutput M}.
Import CLE_Reward.

Local Abbreviation Self := (CLE_Reward.t M).
Local Abbreviation Store := (Store SimulationDataset UnrollInputOutput Self).

Lemma keeps_on_metric_set_self {X A} (f : Store -> X) (m : Py M A) :
  (forall ms st, f (put_self (set_metric_set ms (st_self st)) st) = f st) ->
  keeps f (on_metric_set m st_self put_self).
Proof.
  intros Hput st. unfold on_metric_set.
  destruct (m (metric_set (st_self st))) as [r ms]. simpl. apply Hput.
Qed.

Ltac frame_step :=
  first
    [ apply keeps_ret | apply keeps_lift | apply keeps_gets
    | apply keeps_assert
    | apply keeps_if
    | apply keeps_bind; [| intros ?] ].

(** X8: [get_reward] never changes the configuration of the reward: on
    every path, returning or raising, the prefix, the clipping and yaw
    settings and the early-stop settings are what they were. *)
Theorem cle_get_reward_keeps_configuration (st : Store) :
  cle_configuration (st_self (snd (get_reward st)))
    = cle_configuration (st_self st).
Proof.
  revert st.
  change (keeps (fun st : Store => cle_configuration (st_self st)) get_reward).
  unfold get_reward.
  apply keeps_bind; [apply keeps_gets|]. intros ri.
  apply keeps_bind; [apply keeps_assert|]. intros _.
  destruct (build_simulated_outputs ri) as [outs idx].
  apply keeps_bind; [apply keeps_on_metric_set_self; reflexivity|]. intros _.
  repeat frame_step.
  apply keeps_modify. reflexivity.
Qed.

Lemma keeps_when_raising_of_keeps {S X A} (f : S -> X) (m : Py S A) :
  keeps f m -> keeps_when_raising f m.
Proof. intros Hm st e _. apply Hm. Qed.

Lemma keeps_when_raising_bind {S X A B} (f : S -> X)
    (m : Py S A) (k : A -> Py S B) :
  keeps f m -> (forall a, keeps_when_raising f (k a)) ->
  keeps_when_raising f (m ≫= k).
Proof.
  intros Hm Hk st e. unfold mbind, Py_bind, py_bind.
  specialize (Hm st). destruct (m st) as [[a|e'] st1]; simpl in *.
  - intros He. rewrite (Hk a st1 e He). exact Hm.
  - intros _. exact Hm.
Qed.

Lemma keeps_when_raising_if {S X A} (f : S -> X) (c : bool)
    (m1 m2 : Py S A) :
  keeps_when_raising f m1 -> keeps_when_raising f m2 ->
  keeps_when_raising f (if c then m1 else m2).
Proof. destruct c; auto. Qed.

Lemma keeps_when_raising_modify_ret {S X A} (f : S -> X) (g : S -> S) (a : A) :
  keeps_when_raising f (py_modify g ≫= fun _ => py_ret a).
Proof. intros st e. discriminate. Qed.

(** The steps between the evaluation and the final assignment write
    nothing. *)
Ltac raising_step :=
  first
    [ apply keeps_when_raising_modify_ret
    | apply keeps_when_raising_bind;
      [ first [ apply keeps_lift | apply keeps_gets
              | apply keeps_if; repeat frame_step ]
      | intros ? ] ].

(** X9: a call of [get_reward] that raises has not written [stop_error]:
    the field still holds what the last completed call left there. *)
Theorem cle_get_reward_raising_keeps_stop_error (st : Store) e :
  fst (get_reward st) = Raise e ->
  stop_error (st_self (snd (get_reward st))) = stop_error (st_self st).
Proof.
  revert st e.
  change (keeps_when_raising
            (fun st : Store => stop_error (st_self st)) get_reward).
  unfold get_reward.
  apply keeps_when_raising_bind; [apply keeps_gets|]. intros ri.
  apply keeps_when_raising_bind; [apply keeps_assert|]. intros _.
  destruct (build_simulated_outputs ri) as [outs idx].
  apply keeps_when_raising_bind;
    [apply keeps_on_metric_set_self; reflexivity|]. intros _.
  repeat raising_step.
Qed.

Lemma tensor_getitem_out_of_range t d rest i :
  shape t = d :: rest ->
  ~ (- Z.of_nat d <= i < Z.of_nat d)%Z ->
  tensor_getitem t i = Raise IndexError.
Proof.
  intros Hs Hi. unfold tensor_getitem. rewrite Hs. cbv zeta.
  destruct (decide (i < 0)%Z); rewrite decide_False; auto; lia.
Qed.

Lemma tensor_getitem_vector xs i x :
  (0 <= i)%Z -> xs !! Z.to_nat i = Some x ->
  tensor_getitem (mkTensor [length xs] xs) i = Ok (mkTensor [] [x]).
Proof.
  intros Hi Hx. unfold tensor_getitem. cbn [shape data]. cbv zeta.
  pose proof (lookup_lt_Some _ _ _ Hx) as Hlt.
  destruct (decide (i < 0)%Z) as [Hneg|_]; [lia|].
  rewrite decide_True by lia.
  cbn [numel fold_right]. rewrite Nat.mul_1_r.
  by rewrite (drop_S _ _ _ Hx).
Qed.


(** X11: the reward read off the series themselves.  When the two series
    of the scene are vectors and [frame_index + 1] is a position in both,
    a call on one scene returns the negative displacement error at that
    position, clipped when clipping is on, minus the weighted absolute
    yaw error at that position when the yaw penalty is on; [stop_error]
    becomes the displacement error at that position. *)
Theorem cle_get_reward_on_vectors (st : Store) s ms' sm dists yaws d y w :
  scene_indices (st_input st) = [s] ->
  ms_evaluate [output_for (st_input st) s] (metric_set (st_self st))
    = (Ok tt, ms') ->
  ms_scene_metric_results ms' !! s = Some sm ->
  sm !! "displacement_error_l2" = Some (mkTensor [length dists] dists) ->
  sm !! "yaw_error_ca" = Some (mkTensor [length yaws] yaws) ->
  (0 <= frame_index (st_input st) + 1)%Z ->
  dists !! Z.to_nat (frame_index (st_input st) + 1) = Some d ->
  yaws !! Z.to_nat (frame_index (st_input st) + 1) = Some y ->
  yaw_weight (st_self st) = Some w ->
  get_reward st =
    (Ok (Float
           (let clipped :=
              if enable_clip (st_self st)
              then Rmax (- rew_clip_thresh (st_self st)) (- d) else - d in
            if truthy (use_yaw (st_self st))
            then clipped - w * Rabs y else clipped)),
     mkStore (set_stop_error d (set_metric_set ms' (st_self st)))
       (st_input st)).
Proof.
  intros Hs Hev Hsm Hds Hys Hi Hd Hy Hw.
  rewrite (get_reward_run st s ms' d (mkTensor [] [y]) w (w * Rabs y)
             Hs Hev).
  - cbv zeta. rewrite py_max_Rmax. reflexivity.
  - unfold metric_value, metric_entry, dict_getitem_int, dict_getitem.
    rewrite Hsm, Hds. by rewrite (tensor_getitem_vector dists _ d Hi Hd).
  - unfold metric_entry, dict_getitem_int, dict_getitem.
    rewrite Hsm, Hys. by rewrite (tensor_getitem_vector yaws _ y Hi Hy).
  - exact Hw.
  - intros _. reflexivity.
Qed.

(** X12: the range of the reward.  In a call on one scene that reads a
    displacement error [d] and a yaw error [y], with [d], the clipping
    threshold and the yaw weight not negative, [get_reward] returns a
    reward that is never positive; with clipping on it is also never
    below minus the threshold minus the weighted absolute yaw error. *)
Theorem cle_get_reward_range (st : Store) s ms' d y w :
  scene_indices (st_input st) = [s] ->
  ms_evaluate [output_for (st_input st) s] (metric_set (st_self st))
    = (Ok tt, ms') ->
  metric_value (ms_scene_metric_results ms') s "displacement_error_l2"
    (frame_index (st_input st) + 1) = Ok d ->
  metric_value (ms_scene_metric_results ms') s "yaw_error_ca"
    (frame_index (st_input st) + 1) = Ok y ->
  yaw_weight (st_self st) = Some w ->
  0 <= d -> 0 <= rew_clip_thresh (st_self st) -> 0 <= w ->
  exists r,
    fst (get_reward st) = Ok (Float r) /\
    r <= 0 /\
    (enable_clip (st_self st) = true ->
     - rew_clip_thresh (st_self st) - w * Rabs y <= r).
Proof.
  intros Hs Hev Hd Hy Hw Hd0 Hthr Hw0.
  apply metric_value_inv in Hy as (ye & Hye & Hitem).
  rewrite (get_reward_run st s ms' d ye w (w * Rabs y) Hs Hev Hd Hye Hw)
    by (intros _; by apply item_weighted_abs).
  eexists. split; [reflexivity|]. cbv zeta.
  assert (Hpen : 0 <= w * Rabs y)
    by (apply Rmult_le_pos; [exact Hw0 | apply Rabs_pos]).
  rewrite py_max_Rmax.
  pose proof (Rmax_l (- rew_clip_thresh (st_self st)) (- d)) as Hlow.
  assert (Hup : Rmax (- rew_clip_thresh (st_self st)) (- d) <= 0)
    by (apply Rmax_lub; lra).
  split.
  - destruct (enable_clip (st_self st)), (truthy (use_yaw (st_self st)));
      lra.
  - intros ->. destruct (truthy (use_yaw (st_self st))); lra.
Qed.

(** X7: the early-stop error outlives the episode.  After a call of
    [get_reward] that returned, [reset] changes the metric set only: it
    hands it to the metric set's own [reset]; the [stop_error] the step
    recorded is still there, and the configuration is the one the reward
    had before the step. *)
Theorem cle_stop_error_survives_reset (st : Store) r :
  fst (get_reward st) = Ok r ->
  let self1 := st_self (snd (get_reward st)) in
  let self2 := snd (reset self1) in
  metric_set self2 = snd (ms_reset (metric_set self1)) /\
  stop_error self2 = stop_error self1 /\
  stop_error self2 <> None /\
  cle_configuration self2 = cle_configuration (st_self st).
Proof.
  intros Hret.
  apply get_reward_returns_inv in Hret
    as (s & ms' & d & ye & w & yw & Hs & Hev & Hd & Hy & Hw & Hyw).
  rewrite (get_reward_run st s ms' d ye w yw Hs Hev Hd Hy Hw Hyw).
  cbv zeta. unfold reset, on_metric_set. simpl.
  destruct (ms_reset ms') as [res ms'']. simpl.
  repeat split; auto.
Qed.

End CLE_RewardMore.

(** ** More on the open-loop reward *)

Section OLE_RewardMore.
Context {SimulationDataset UnrollInputOutput : Type}.
Import OLE_Reward.

Local Abbreviation OStore :=
  (Store SimulationDataset UnrollInputOutput OLE_Reward.t).

(** X13: the failures of the open-loop [get_reward], in the order the
    source meets them: no ["positions"] among the outputs is a [KeyError]
    for that key, whatever the targets are; with positions but no
    ["target_positions"] it is a [KeyError] for the latter; with both
    arrays but shapes that do not broadcast it is a [ValueError].  None of
    them changes the store. *)
Theorem ole_get_reward_failures (st : OStore) :
  (ego_output_dict (st_input st) !! "positions" = None ->
   get_reward st = (Raise (KeyError (KStr "positions")), st)) /\
  (forall p,
     ego_output_dict (st_input st) !! "positions" = Some p ->
     ego_input_dict (st_input st) !! "target_positions" = None ->
     get_reward st = (Raise (KeyError (KStr "target_positions")), st)) /\
  (forall p t,
     ego_output_dict (st_input st) !! "positions" = Some p ->
     ego_input_dict (st_input st) !! "target_positions" = Some t ->
     broadcast_shapes (shape p) (shape t) = None ->
     get_reward st = (Raise ValueError, st)).
Proof.
  unfold get_reward, mbind, Py_bind, py_bind, py_gets, py_lift, py_ret,
    dict_getitem, np_sub.
  simpl. repeat split.
  - intros ->. reflexivity.
  - intros p -> ->. reflexivity.
  - intros p t -> -> ->. reflexivity.
Qed.

(** X14: the open-loop reward does not tell prediction from target: two
    inputs whose position arrays are exchanged get the same reward. *)
Theorem ole_get_reward_symmetric (st st' : OStore) p t :
  ego_output_dict (st_input st) !! "positions" = Some p ->
  ego_input_dict (st_input st) !! "target_positions" = Some t ->
  ego_output_dict (st_input st') !! "positions" = Some t ->
  ego_input_dict (st_input st') !! "target_positions" = Some p ->
  shape p = shape t -> well_formed p -> well_formed t ->
  fst (get_reward st) = fst (get_reward st').
Proof.
  intros Hp Ht Hp' Ht' Hs Hwp Hwt.
  rewrite (ole_get_reward_run st p t Hp Ht Hs Hwp Hwt).
  rewrite (ole_get_reward_run st' t p Hp' Ht' (eq_sym Hs) Hwt Hwp).
  simpl. do 2 f_equal. unfold np_mean, np_square, tmap, tmap2. simpl.
  assert (Hsq : List.map (fun x => x * x) (map2 Rminus (data p) (data t))
                = List.map (fun x => x * x) (map2 Rminus (data t) (data p))).
  { rewrite (map2_flip Rminus Rminus (data p) (data t))
      by (intros x y; ring).
    rewrite List.map_map. apply List.map_ext. intros x. ring. }
  by rewrite Hsq.
Qed.

Lemma expand_row k n xs :
  length xs = k -> expand [1%nat; k] [n; k] xs = concat (replicate n xs).
Proof.
  intros Hlen.
  assert (Hk : expand [k] [k] xs = xs).
  { apply expand_same. simpl. lia. }
  change (expand [1%nat; k] [n; k] xs)
    with (if decide (1%nat = n)
          then concat (List.map (expand [k] [k]) (chunks (numel [k]) 1 xs))
          else concat (replicate n (expand [k] [k] xs))).
  destruct (decide (1%nat = n)) as [<-|Hn].
  - cbn [numel fold_right chunks List.map].
    rewrite Nat.mul_1_r, take_ge by lia. rewrite Hk. reflexivity.
  - by rewrite Hk.
Qed.

Lemma length_concat_replicate n (xs : list R) :
  length (concat (replicate n xs)) = (n * length xs)%nat.
Proof.
  induction n as [|n IH]; simpl; [reflexivity|].
  rewrite length_app, IH. reflexivity.
Qed.

Lemma np_sub_row p t n k :
  shape p = [n; k] -> shape t = [k] -> well_formed p -> well_formed t ->
  np_sub p t
    = np_sub p (mkTensor [n; k] (concat (replicate n (data t)))).
Proof.
  intros Hp Ht Hwp Hwt.
  assert (Hlen : length (data t) = k).
  { unfold well_formed in Hwt. rewrite Ht in Hwt. simpl in Hwt. lia. }
  assert (Hleft : np_sub p t
    = Ok (mkTensor [n; k]
            (map2 Rminus (data p) (concat (replicate n (data t)))))).
  { unfold np_sub, broadcast_shapes. rewrite Hp, Ht. simpl.
    rewrite broadcast_dim_same. simpl.
    rewrite <- Hp at 1. rewrite (broadcast_to_same p Hwp).
    unfold broadcast_to, tmap2. rewrite Ht. simpl length.
    simpl replicate. simpl app. cbn [data shape].
    by rewrite (expand_row k n (data t) Hlen), Hp. }
  rewrite Hleft. symmetry.
  rewrite np_sub_same_shape.
  - unfold tmap2. simpl. by rewrite Hp.
  - by rewrite Hp.
  - exact Hwp.
  - unfold well_formed. simpl. rewrite length_concat_replicate. lia.
Qed.

(** X15: a target array of one row is not an error: it is compared with
    every predicted row.  With positions of shape [[n; k]] and targets of
    shape [[k]], [get_reward] gives what it gives for the targets
    repeated [n] times. *)
Theorem ole_get_reward_broadcasts_target_row (st st' : OStore) p t n k :
  ego_output_dict (st_input st) !! "positions" = Some p ->
  ego_input_dict (st_input st) !! "target_positions" = Some t ->
  ego_output_dict (st_input st') !! "positions" = Some p ->
  ego_input_dict (st_input st') !! "target_positions"
    = Some (mkTensor [n; k] (concat (replicate n (data t)))) ->
  shape p = [n; k] -> shape t = [k] -> well_formed p -> well_formed t ->
  fst (get_reward st) = fst (get_reward st').
Proof.
  intros Hp Ht Hp' Ht' Hsp Hst Hwp Hwt.
  unfold get_reward, mbind, Py_bind, py_bind, py_gets, py_lift, py_ret,
    dict_getitem.
  simpl. rewrite Hp, Ht, Hp', Ht'. simpl.
  rewrite (np_sub_row p t n k Hsp Hst Hwp Hwt).
  destruct (np_sub p _) as [difference|e]; reflexivity.
Qed.

End OLE_RewardMore.

(** ** More on the aggregation utility *)

Section CleUtilsMore.
Context {SceneValidation : Type}.
Variable aggregate :
  gmap Z SceneValidation -> result (list (string * Tensor)).
Import CleUtils.

Local Abbreviation World := (CleUtils.World SceneValidation).

Lemma add_rows_item_fails agg_log table :
  length (field_names table) = 2%nat ->
  Exists (fun entry => forall c, item (snd entry) <> Ok c) agg_log ->
  add_rows agg_log table = Raise RuntimeError.
Proof.
  intros Hw HE. revert table Hw.
  induction agg_log as [|[name count] rest IH]; intros table Hw.
  - inversion HE.
  - simpl. destruct (item count) as [c|e] eqn:Hc.
    + unfold add_row. simpl. rewrite decide_True by (symmetry; exact Hw).
      apply IH; [|exact Hw].
      inversion HE as [? ? Hhead|? ? Htail]; subst; [|exact Htail].
      exfalso. by apply (Hhead c).
    + by rewrite (item_raise count e Hc).
Qed.

(** X17: the reset comes before the table.  When the aggregator returns
    but one of its count tensors does not hold exactly one value,
    [aggregate_cle_metrics] raises [RuntimeError] with the evaluator
    already reset and nothing printed. *)
Theorem aggregate_cle_metrics_fails_after_reset (w : World) agg_log :
  aggregate (ClosedLoopEvaluator.validation_results (cle_evaluator w))
    = Ok agg_log ->
  Exists (fun entry => forall c, item (snd entry) <> Ok c) agg_log ->
  aggregate_cle_metrics aggregate w
    = (Raise RuntimeError,
       mkWorld (ClosedLoopEvaluator.reset (cle_evaluator w)) (stdout w)).
Proof.
  intros Hagg HE.
  unfold aggregate_cle_metrics, mbind, Py_bind, py_bind, py_modify, py_lift.
  cbv zeta. rewrite Hagg. simpl.
  by rewrite (add_rows_item_fails agg_log
                (mkPrettyTable ["metric"; "log_replayed agents"] [])
                eq_refl HE).
Qed.

(** X18: two calls in a row.  After a call that returned, the next call
    hands the aggregator an empty collection of validation results, and
    prints the table of what the aggregator makes of that: the counts of
    the first call are not seen again. *)
Theorem aggregate_cle_metrics_twice (w : World) agg_log rows agg_empty rows' :
  aggregate (ClosedLoopEvaluator.validation_results (cle_evaluator w))
    = Ok agg_log ->
  Forall2 count_row agg_log rows ->
  aggregate ∅ = Ok agg_empty ->
  Forall2 count_row agg_empty rows' ->
  (aggregate_cle_metrics aggregate;; aggregate_cle_metrics aggregate) w
    = (Ok tt,
       mkWorld (ClosedLoopEvaluator.reset (cle_evaluator w))
         (stdout w
            ++ [mkPrettyTable ["metric"; "log_replayed agents"] rows;
                mkPrettyTable ["metric"; "log_replayed agents"] rows'])).
Proof.
  intros Hagg HF Hempty HF'.
  unfold aggregate_cle_metrics, mbind, Py_bind, py_bind, py_modify, py_lift.
  cbv zeta. rewrite Hagg. simpl.
  rewrite (add_rows_spec agg_log
             (mkPrettyTable ["metric"; "log_replayed agents"] [])
             rows eq_refl HF).
  simpl. unfold ClosedLoopEvaluator.validation_results. simpl.
  rewrite Hempty. simpl.
  rewrite (add_rows_spec agg_empty
             (mkPrettyTable ["metric"; "log_replayed agents"] [])
             rows' eq_refl HF').
  simpl. by rewrite <- app_assoc.
Qed.

End CleUtilsMore.

(** ** The visualiser *)

Section VisualiserGeometry.
Import Visualiser.

(** X19: the box drawn for an agent is the rectangle of its extents about
    its centroid, whatever its yaw: the four corners average to the
    centroid, the sides are as long as the second and the first extent in
    turn, and the two diagonals are equal. *)
Theorem box_world_coords_is_rectangle (a : Agent) :
  exists c0 c1 c2 c3,
    box_world_coords a = [c0; c1; c2; c3] /\
    fst c0 + fst c1 + fst c2 + fst c3 = 4 * fst (centroid a) /\
    snd c0 + snd c1 + snd c2 + snd c3 = 4 * snd (centroid a) /\
    sq_dist c0 c1 = Rsqr (snd (fst (extent a))) /\
    sq_dist c1 c2 = Rsqr (fst (fst (extent a))) /\
    sq_dist c2 c3 = Rsqr (snd (fst (extent a))) /\
    sq_dist c3 c0 = Rsqr (fst (fst (extent a))) /\
    sq_dist c0 c2 = sq_dist c1 c3.
Proof.
  destruct a as [[cx cy] [[ex ey] ez] yaw id probs].
  unfold box_world_coords, corners_base_coords. cbn.
  pose proof (sin2_cos2 yaw) as Htrig. unfold Rsqr in Htrig.
  set (s := sin yaw) in *. set (c := cos yaw) in *.
  do 4 eexists. split; [reflexivity|]. cbn. unfold sq_dist, Rsqr. cbn.
  repeat split; try lra; nra.
Qed.

Lemma argmax_from_spec xs : forall best_i best i,
  (best_i < i)%nat ->
  let r := argmax_from best_i best i xs in
  (r = best_i /\ Forall (fun x => x <= best) xs) \/
  (exists k m, r = (i + k)%nat /\ xs !! k = Some m /\ best < m /\
               Forall (fun x => x <= m) xs /\
               forall j y, (j < k)%nat -> xs !! j = Some y -> y < m).
Proof.
  induction xs as [|x xs IH]; intros best_i best i Hlt; simpl.
  - left. split; [reflexivity|constructor].
  - destruct (Rlt_dec best x) as [Hbx|Hbx].
    + right. destruct (IH i x (S i) (Nat.lt_succ_diag_r i))
        as [[Hr HF]|(k & m & Hr & Hk & Hm & HF & Hfirst)].
      * exists 0%nat, x. rewrite Nat.add_0_r. repeat split; auto.
        -- constructor; [lra|exact HF].
        -- intros j y Hj. lia.
      * exists (S k), m. repeat split.
        -- rewrite Hr. lia.
        -- exact Hk.
        -- lra.
        -- constructor; [lra|exact HF].
        -- intros [|j] y Hj Hy; simpl in Hy.
           ++ injection Hy as <-. exact Hm.
           ++ apply (Hfirst j y); [lia|exact Hy].
    + assert (Hlt' : (best_i < S i)%nat) by lia.
      destruct (IH best_i best (S i) Hlt')
        as [[Hr HF]|(k & m & Hr & Hk & Hm & HF & Hfirst)].
      * left. split; [exact Hr|]. constructor; [lra|exact HF].
      * right. exists (S k), m. repeat split.
        -- rewrite Hr. lia.
        -- exact Hk.
        -- exact Hm.
        -- constructor; [lra|exact HF].
        -- intros [|j] y Hj Hy; simpl in Hy.
           ++ injection Hy as <-. lra.
           ++ apply (Hfirst j y); [lia|exact Hy].
Qed.

(** [np_argmax] picks the first largest entry: the position it returns
    holds a value no entry exceeds, and every entry before it is strictly
    smaller; on a row without entries it raises [ValueError]. *)
Lemma np_argmax_first_largest (xs : list R) :
  (xs = [] -> np_argmax xs = Raise ValueError) /\
  (xs <> [] ->
   exists i m,
     np_argmax xs = Ok i /\ xs !! i = Some m /\
     Forall (fun x => x <= m) xs /\
     forall j y, (j < i)%nat -> xs !! j = Some y -> y < m).
Proof.
  split; [intros ->; reflexivity|].
  destruct xs as [|x xs]; [congruence|]. intros _. simpl.
  destruct (argmax_from_spec xs 0 x 1 Nat.lt_0_1)
    as [[Hr HF]|(k & m & Hr & Hk & Hm & HF & Hfirst)].
  - exists 0%nat, x. rewrite Hr. repeat split; auto.
    + constructor; [lra|exact HF].
    + intros j y Hj. lia.
  - exists (S k), m. rewrite Hr. repeat split; auto.
    + constructor; [lra|exact HF].
    + intros [|j] y Hj Hy; simpl in Hy.
      * injection Hy as <-. exact Hm.
      * apply (Hfirst j y); [lia|exact Hy].
Qed.

End VisualiserGeometry.

Section VisualiserFrames.
Context {Frame AgentsFrame TLFaces Bounds MapAPI : Type}.
Context `{!Visualiser.Imports Frame AgentsFrame TLFaces Bounds MapAPI}.
Import Visualiser.

Lemma for_each_Forall2 {A B} (f : A -> result B) xs ys :
  for_each f xs = Ok ys -> Forall2 (fun x y => f x = Ok y) xs ys.
Proof.
  revert ys. induction xs as [|x xs IH]; intros ys; simpl.
  - intros [= <-]. constructor.
  - destruct (f x) as [y|e] eqn:Hy; [|discriminate].
    destruct (for_each f xs) as [ys'|e]; [|discriminate].
    intros [= <-]. constructor; auto.
Qed.

Lemma for_each_length {A B} (f : A -> result B) xs ys :
  for_each f xs = Ok ys -> length ys = length xs.
Proof.
  intros Hfe. apply for_each_Forall2 in Hfe. symmetry.
  by apply Forall2_length in Hfe.
Qed.

Lemma map_lookup_Some {A B} (f : A -> B) xs i x :
  xs !! i = Some x -> List.map f xs !! i = Some (f x).
Proof.
  revert i. induction xs as [|x0 xs IH]; intros [|i] Hx; simpl in *;
    try discriminate.
  - congruence.
  - by apply IH.
Qed.

Lemma dd_append_lookup k v d :
  dd_append k v d !! k = Some (default [] (d !! k) ++ [v]).
Proof. unfold dd_append. by rewrite lookup_insert_eq. Qed.

Lemma dd_append_lookup_ne k k' v d :
  k <> k' -> dd_append k v d !! k' = d !! k'.
Proof. intros Hk. unfold dd_append. by rewrite lookup_insert_ne. Qed.

(** A loop that appends one value per round to the column [k]. *)
Lemma fold_append_column {E}
    (step : gmap string (list column_value) -> E
            -> gmap string (list column_value))
    (k : string) (g : E -> column_value) :
  (forall d e, step d e !! k = Some (default [] (d !! k) ++ [g e])) ->
  forall es d,
    es <> [] ->
    fold_left step es d !! k
      = Some (default [] (d !! k) ++ List.map g es).
Proof.
  intros Hstep es. induction es as [|e es IH]; intros d Hne;
    [congruence|]. simpl.
  destruct es as [|e' es'].
  - simpl. apply Hstep.
  - rewrite IH by discriminate. rewrite Hstep. simpl.
    by rewrite <- app_assoc.
Qed.

Lemma lanes_append_x d lane :
  lanes_append d lane !! "x"
    = Some (default [] (d !! "x") ++ [VArray (fst (fst lane))]).
Proof.
  unfold lanes_append.
  rewrite !dd_append_lookup_ne by discriminate. apply dd_append_lookup.
Qed.

Lemma lanes_append_y d lane :
  lanes_append d lane !! "y"
    = Some (default [] (d !! "y") ++ [VArray (snd (fst lane))]).
Proof.
  unfold lanes_append.
  rewrite dd_append_lookup_ne by discriminate.
  rewrite dd_append_lookup.
  by rewrite dd_append_lookup_ne by discriminate.
Qed.

Lemma lanes_append_color d lane :
  lanes_append d lane !! "color"
    = Some (default [] (d !! "color") ++ [VStr (snd lane)]).
Proof.
  unfold lanes_append. rewrite dd_append_lookup.
  by rewrite !dd_append_lookup_ne by discriminate.
Qed.

Lemma crosswalks_append_x d cw :
  crosswalks_append d cw !! "x"
    = Some (default [] (d !! "x") ++ [VArray (fst cw)]).
Proof.
  unfold crosswalks_append.
  rewrite dd_append_lookup_ne by discriminate. apply dd_append_lookup.
Qed.

Lemma crosswalks_append_y d cw :
  crosswalks_append d cw !! "y"
    = Some (default [] (d !! "y") ++ [VArray (snd cw)]).
Proof.
  unfold crosswalks_append. rewrite dd_append_lookup.
  by rewrite dd_append_lookup_ne by discriminate.
Qed.

Lemma list_getitem_head {A} (x : A) xs : list_getitem (x :: xs) 0 = Ok x.
Proof. reflexivity. Qed.

Lemma drop_1_cons {A} (x : A) xs : drop 1 (x :: xs) = xs.
Proof. reflexivity. Qed.

(** What a returned [get_frame_data] was made of. *)
Lemma get_frame_data_inv mapAPI frame agents tls_frame l c e a :
  get_frame_data mapAPI frame agents tls_frame = Ok (l, c, e, a) ->
  exists lanes crosswalks label_indices names probabilities,
    for_each
      (lane_entry mapAPI
         (face_id (filter_tl_faces_by_status tls_frame "ACTIVE")))
      (indices_in_bounds (fst (ego_translation frame))
         (lanes_bounds mapAPI) 50) = Ok lanes /\
    l = fold_left lanes_append lanes ∅ /\
    for_each (crosswalk_entry mapAPI)
      (indices_in_bounds (fst (ego_translation frame))
         (crosswalks_bounds mapAPI) 50) = Ok crosswalks /\
    c = fold_left crosswalks_append crosswalks {[ "x" := nil; "y" := nil ]} /\
    e = <["y" := [VArray (List.map snd
                            (box_world_coords (get_ego_as_agent frame)))]]>
          (<["x" := [VArray (List.map fst
                               (box_world_coords (get_ego_as_agent frame)))]]>
             ({[ "x" := nil; "y" := nil ]})) /\
    for_each (fun a => np_argmax (label_probabilities a)) agents
      = Ok label_indices /\
    for_each (list_getitem PERCEPTION_LABELS) label_indices = Ok names /\
    for_each (fun ai => list_getitem (label_probabilities (fst ai)) (snd ai))
      (zip agents label_indices) = Ok probabilities /\
    a = <["color" := List.map (fun n => VStr (agent_colour n)) names]>
          (<["p" := List.map VNum probabilities]>
             (<["name" := List.map VStr names]>
                (<["id" := List.map (fun a => VInt (track_id a)) agents]>
                   (<["y" := List.map (fun b => VArray (List.map snd b))
                               (List.map box_world_coords agents)]>
                      (<["x" := List.map (fun b => VArray (List.map fst b))
                                  (List.map box_world_coords agents)]>
                         ∅))))).
Proof.
  unfold get_frame_data. cbv zeta.
  destruct (for_each (lane_entry _ _) _) as [lanes|] eqn:Hl; [|discriminate].
  destruct (for_each (crosswalk_entry _) _) as [crosswalks|] eqn:Hc;
    [|discriminate].
  rewrite List.map_cons, list_getitem_head, !drop_1_cons.
  destruct (for_each (fun a0 => np_argmax _) agents) as [label_indices|] eqn:Hi;
    [|discriminate].
  destruct (for_each (list_getitem _) label_indices) as [names|] eqn:Hn;
    [|discriminate].
  destruct (for_each _ (zip agents label_indices)) as [probabilities|] eqn:Hp;
    [|discriminate].
  intros [= <- <- <- <-].
  exists lanes, crosswalks, label_indices, names, probabilities.
  repeat split; first [assumption | reflexivity].
Qed.

Lemma zip_lookup_Some {A B} (xs : list A) (ys : list B) i x y :
  xs !! i = Some x -> ys !! i = Some y -> zip xs ys !! i = Some (x, y).
Proof.
  revert ys i. induction xs as [|x0 xs IH]; intros [|y0 ys] [|i] Hx Hy;
    simpl in *; try discriminate.
  - congruence.
  - by apply IH.
Qed.

Lemma list_getitem_Ok {A} (xs : list A) i x :
  list_getitem xs i = Ok x -> xs !! i = Some x.
Proof. unfold list_getitem. destruct (xs !! i); congruence. Qed.

(** X20: the tables [get_frame_data] returns for the ego and the agents
    are well formed.  The ego table holds one polygon with four corners.
    The six columns of the agents table (x, y, id, name, p, color) all
    have one entry per agent passed in, the ego not among them. *)
Theorem get_frame_data_agents_table_aligned
    mapAPI frame agents tls_frame l c e a :
  get_frame_data mapAPI frame agents tls_frame = Ok (l, c, e, a) ->
  (exists ex ey,
     e !! "x" = Some [VArray ex] /\ e !! "y" = Some [VArray ey] /\
     length ex = 4%nat /\ length ey = 4%nat) /\
  Forall
    (fun k => exists column,
       a !! k = Some column /\ length column = length agents)
    ["x"; "y"; "id"; "name"; "p"; "color"].
Proof.
  intros Hret.
  apply get_frame_data_inv in Hret
    as (lanes & crosswalks & label_indices & names & probabilities
        & _ & _ & _ & _ & -> & Hi & Hn & Hp & ->).
  pose proof (for_each_length _ _ _ Hi) as Hli.
  pose proof (for_each_length _ _ _ Hn) as Hln.
  pose proof (for_each_length _ _ _ Hp) as Hlp.
  rewrite length_zip_with, Hli, Nat.min_id in Hlp.
  split.
  - do 2 eexists. rewrite lookup_insert_ne by discriminate.
    rewrite !lookup_insert_eq. repeat split; reflexivity.
  - repeat constructor; eexists;
      (split;
       [ repeat (rewrite lookup_insert_ne by discriminate);
         apply lookup_insert_eq
       | rewrite ?length_map; lia ]).
Qed.

(** X21: every row of the agents table describes its agent.  Row [i]
    holds the corners of the box of the agent at position [i] and its
    track id; the name is the entry of [PERCEPTION_LABELS] at the
    position where the agent's label probabilities are largest, [p] is
    that largest probability, and the colour is the one of that name. *)
Theorem get_frame_data_agent_rows
    mapAPI frame agents tls_frame l c e a i agent :
  get_frame_data mapAPI frame agents tls_frame = Ok (l, c, e, a) ->
  agents !! i = Some agent ->
  exists xs ys ids names ps colours j name p,
    a !! "x" = Some xs /\ a !! "y" = Some ys /\ a !! "id" = Some ids /\
    a !! "name" = Some names /\ a !! "p" = Some ps /\
    a !! "color" = Some colours /\
    xs !! i = Some (VArray (List.map fst (box_world_coords agent))) /\
    ys !! i = Some (VArray (List.map snd (box_world_coords agent))) /\
    ids !! i = Some (VInt (track_id agent)) /\
    PERCEPTION_LABELS !! j = Some name /\
    label_probabilities agent !! j = Some p /\
    Forall (fun q => q <= p) (label_probabilities agent) /\
    names !! i = Some (VStr name) /\
    ps !! i = Some (VNum p) /\
    colours !! i = Some (VStr (agent_colour name)).
Proof.
  intros Hret Hagent.
  apply get_frame_data_inv in Hret
    as (lanes & crosswalks & label_indices & names & probabilities
        & _ & _ & _ & _ & _ & Hi & Hn & Hp & ->).
  apply for_each_Forall2 in Hi, Hn, Hp.
  destruct (Forall2_lookup_l _ _ _ _ _ Hi Hagent) as (j & Hj & Hargmax).
  destruct (Forall2_lookup_l _ _ _ _ _ Hn Hj) as (name & Hname & Hlabel).
  destruct (Forall2_lookup_l _ _ _ _ _ Hp (zip_lookup_Some _ _ _ _ _ Hagent Hj))
    as (p & Hprob & Hp_at).
  simpl in Hp_at.
  apply list_getitem_Ok in Hlabel, Hp_at.
  assert (Hmax : Forall (fun q => q <= p) (label_probabilities agent)).
  { destruct (np_argmax_first_largest (label_probabilities agent))
      as [_ Hne].
    destruct Hne as (j' & m & Hj' & Hm & HF & _).
    - intros Hnil. rewrite Hnil in Hargmax. discriminate.
    - rewrite Hj' in Hargmax. injection Hargmax as ->.
      assert (m = p) as -> by congruence. exact HF. }
  do 6 eexists. exists j, name, p.
  repeat (split;
          [ repeat (rewrite lookup_insert_ne by discriminate);
            apply lookup_insert_eq |]).
  repeat split; try assumption.
  - apply (map_lookup_Some (fun b => VArray (List.map fst b))).
    by apply map_lookup_Some.
  - apply (map_lookup_Some (fun b => VArray (List.map snd b))).
    by apply map_lookup_Some.
  - by apply (map_lookup_Some (fun a => VInt (track_id a))).
  - by apply (map_lookup_Some VStr).
  - by apply (map_lookup_Some VNum).
  - by apply (map_lookup_Some (fun n => VStr (agent_colour n))).
Qed.

(** X22: the lanes and crosswalks tables.  Without a lane in bounds the
    lanes table has no column at all; otherwise its columns x, y and
    color have one entry per lane in bounds.  The crosswalks table always
    has the columns x and y, with one entry per crosswalk in bounds. *)
Theorem get_frame_data_map_tables mapAPI frame agents tls_frame l c e a :
  get_frame_data mapAPI frame agents tls_frame = Ok (l, c, e, a) ->
  let lane_indices :=
    indices_in_bounds (fst (ego_translation frame)) (lanes_bounds mapAPI) 50 in
  let crosswalk_indices :=
    indices_in_bounds (fst (ego_translation frame))
      (crosswalks_bounds mapAPI) 50 in
  (lane_indices = [] -> l = ∅) /\
  (lane_indices <> [] ->
   Forall
     (fun k => exists column,
        l !! k = Some column /\ length column = length lane_indices)
     ["x"; "y"; "color"]) /\
  Forall
    (fun k => exists column,
       c !! k = Some column /\ length column = length crosswalk_indices)
    ["x"; "y"].
Proof.
  intros Hret.
  apply get_frame_data_inv in Hret
    as (lanes & crosswalks & label_indices & names & probabilities
        & Hl & -> & Hc & -> & _).
  cbv zeta.
  pose proof (for_each_length _ _ _ Hl) as Hll.
  pose proof (for_each_length _ _ _ Hc) as Hlc.
  split; [|split].
  - intros Hnil. rewrite Hnil in Hll.
    apply nil_length_inv in Hll. by rewrite Hll.
  - intros Hne.
    assert (Hlanes : lanes <> []).
    { intros ->. simpl in Hll. apply Hne. by apply nil_length_inv. }
    repeat constructor; eexists.
    + rewrite (fold_append_column lanes_append "x" _ lanes_append_x _ _ Hlanes).
      split; [reflexivity|].
      rewrite lookup_empty. simpl. by rewrite length_map.
    + rewrite (fold_append_column lanes_append "y" _ lanes_append_y _ _ Hlanes).
      split; [reflexivity|].
      rewrite lookup_empty. simpl. by rewrite length_map.
    + rewrite (fold_append_column lanes_append "color" _ lanes_append_color
                 _ _ Hlanes).
      split; [reflexivity|].
      rewrite lookup_empty. simpl. by rewrite length_map.
  - destruct crosswalks as [|cw cws] eqn:Hcws.
    + simpl in *. rewrite <- Hlc.
      repeat constructor; eexists; (split; [reflexivity|reflexivity]).
    + assert (Hne : cw :: cws <> []) by discriminate.
      repeat constructor; eexists.
      * rewrite (fold_append_column crosswalks_append "x" _
                   crosswalks_append_x _ _ Hne).
        split; [reflexivity|].
        rewrite length_app, length_map, <- Hlc. reflexivity.
      * rewrite (fold_append_column crosswalks_append "y" _
                   crosswalks_append_y _ _ Hne).
        split; [reflexivity|].
        rewrite length_app, length_map, <- Hlc. reflexivity.
Qed.

Lemma lane_colour_loop_spec mapAPI tl_ids colour0 colour :
  lane_colour_loop mapAPI tl_ids colour0 = Ok colour ->
  (tl_ids = [] /\ colour = colour0) \/
  (exists key, COLORS !! key = Some colour).
Proof.
  revert colour0. induction tl_ids as [|tl_id rest IH]; intros colour0; simpl.
  - intros [= <-]. by left.
  - unfold dict_getitem.
    destruct (COLORS !! get_color_for_face mapAPI tl_id) as [c1|] eqn:Hc1;
      [|discriminate].
    intros Hloop. right.
    destruct (IH c1 Hloop) as [[-> ->]|Hkey]; [eauto|exact Hkey].
Qed.

Lemma lane_entry_colour mapAPI active_tl_ids lane_idx x y colour :
  lane_entry mapAPI active_tl_ids lane_idx = Ok (x, y, colour) ->
  exists lane_id,
    lane_colour_loop mapAPI
      (intersection_order (get_lane_traffic_control_ids mapAPI lane_id)
         active_tl_ids) "gray" = Ok colour.
Proof.
  unfold lane_entry.
  destruct (list_getitem (lanes_ids mapAPI) lane_idx) as [lane_id|];
    [|discriminate].
  cbv zeta.
  destruct (lane_colour_loop _ _ _) as [c|] eqn:Hloop; [|discriminate].
  intros [= _ _ <-]. by exists lane_id.
Qed.

(** X23: the colour of a lane.  Every entry of the color column of the
    lanes table is "gray" or one of the values of [COLORS]; and when no
    traffic-light face is active (the walk through an intersection
    staying inside the second set), every lane is gray. *)
Theorem get_frame_data_lane_colours
    mapAPI frame agents tls_frame l c e a column :
  get_frame_data mapAPI frame agents tls_frame = Ok (l, c, e, a) ->
  l !! "color" = Some column ->
  Forall
    (fun v => exists colour,
       v = VStr colour /\
       (colour = "gray" \/ exists key, COLORS !! key = Some colour))
    column /\
  ((forall ids active x, In x (intersection_order ids active) -> In x active) ->
   face_id (filter_tl_faces_by_status tls_frame "ACTIVE") = [] ->
   Forall (fun v => v = VStr "gray") column).
Proof.
  intros Hret Hcol.
  apply get_frame_data_inv in Hret
    as (lanes & crosswalks & label_indices & names & probabilities
        & Hl & -> & _).
  assert (Hlanes : lanes <> []).
  { intros ->. simpl in Hcol. by rewrite lookup_empty in Hcol. }
  rewrite (fold_append_column lanes_append "color" _ lanes_append_color
             _ _ Hlanes) in Hcol.
  rewrite lookup_empty in Hcol. simpl in Hcol. injection Hcol as <-.
  apply for_each_Forall2 in Hl.
  split.
  - apply Forall_map_intro.
    induction Hl as [|idx [[x y] colour] idxs lanes' Hentry _ IH];
      constructor.
    + exists colour. split; [reflexivity|].
      apply lane_entry_colour in Hentry as [lane_id Hloop].
      destruct (lane_colour_loop_spec _ _ _ _ Hloop) as [[_ ->]|Hkey];
        [by left|by right].
    + destruct lanes' as [|lane lanes'']; [constructor|].
      apply IH. discriminate.
  - intros Horder Hactive. rewrite Hactive in Hl.
    apply Forall_map_intro.
    induction Hl as [|idx [[x y] colour] idxs lanes' Hentry _ IH];
      constructor.
    + simpl. f_equal.
      apply lane_entry_colour in Hentry as [lane_id Hloop].
      destruct (intersection_order
                  (get_lane_traffic_control_ids mapAPI lane_id) [])
        as [|tl rest] eqn:Hinter.
      * simpl in Hloop. by injection Hloop as <-.
      * exfalso.
        apply (Horder (get_lane_traffic_control_ids mapAPI lane_id) [] tl).
        rewrite Hinter. by left.
    + destruct lanes' as [|lane lanes'']; [constructor|].
      apply IH. discriminate.
Qed.

Lemma masked_columns_lengths pos avail x y :
  masked_columns pos avail = Ok (x, y) -> length x = length y.
Proof.
  unfold masked_columns.
  destruct (decide (length avail = length pos)); [|discriminate].
  intros [= <- <-]. by rewrite !length_map.
Qed.

Lemma trajectory_append_x d xy :
  trajectory_append d xy !! "x"
    = Some (default [] (d !! "x") ++ [VArray (fst xy)]).
Proof.
  unfold trajectory_append.
  rewrite dd_append_lookup_ne by discriminate. apply dd_append_lookup.
Qed.

Lemma trajectory_append_y d xy :
  trajectory_append d xy !! "y"
    = Some (default [] (d !! "y") ++ [VArray (snd xy)]).
Proof.
  unfold trajectory_append. rewrite dd_append_lookup.
  by rewrite dd_append_lookup_ne by discriminate.
Qed.

(** X24: the trajectory tables.  The ego table holds one trajectory, its
    x and y arrays equally long.  Without track ids the agents table has
    no column at all; otherwise its columns x and y have one trajectory
    per track id, and the x and y arrays of each trajectory are equally
    long. *)
Theorem get_frame_trajectories_aligned
    (frames : list Frame) (agents_frames : list AgentsFrame)
    track_ids frame_index traj_agents traj_ego :
  get_frame_trajectories frames agents_frames track_ids frame_index
    = Ok (traj_agents, traj_ego) ->
  (exists x y,
     traj_ego !! "x" = Some [VArray x] /\ traj_ego !! "y" = Some [VArray y] /\
     length x = length y) /\
  (track_ids = [] -> traj_agents = ∅) /\
  (track_ids <> [] ->
   exists xs ys,
     traj_agents !! "x" = Some (List.map VArray xs) /\
     traj_agents !! "y" = Some (List.map VArray ys) /\
     length xs = length track_ids /\
     Forall2 (fun x y => length x = length y) xs ys).
Proof.
  unfold get_frame_trajectories. cbv zeta.
  destruct (for_each _ track_ids) as [trajectories|] eqn:Htraj;
    [|discriminate].
  destruct (get_relative_poses 100 _ None _) as [pos avail].
  destruct (masked_columns pos avail) as [[x y]|] eqn:Hego; [|discriminate].
  intros [= <- <-].
  pose proof (for_each_length _ _ _ Htraj) as Hlen.
  apply for_each_Forall2 in Htraj.
  split; [|split].
  - exists x, y. rewrite trajectory_append_x, trajectory_append_y.
    rewrite lookup_empty. simpl.
    repeat split; try reflexivity. by apply masked_columns_lengths in Hego.
  - intros ->. simpl in Hlen. apply nil_length_inv in Hlen. by rewrite Hlen.
  - intros Hne.
    assert (Htne : trajectories <> []).
    { intros ->. simpl in Hlen. apply Hne. by apply nil_length_inv. }
    exists (List.map fst trajectories), (List.map snd trajectories).
    rewrite (fold_append_column trajectory_append "x" _ trajectory_append_x
               _ _ Htne).
    rewrite (fold_append_column trajectory_append "y" _ trajectory_append_y
               _ _ Htne).
    rewrite lookup_empty. simpl. rewrite !List.map_map.
    repeat split; try reflexivity.
    + by rewrite length_map.
    + clear Hlen Hne Htne.
      induction Htraj as [|track_id [tx ty] ids trajs Hone _ IH]; simpl;
        constructor; [|exact IH].
      destruct (get_relative_poses 20 _ _ _) as [p av].
      by apply masked_columns_lengths in Hone.
Qed.

End VisualiserFrames.

(** ** The further properties on concrete data *)

Section MoreExamples.
Import Fixture Samples.

Lemma closest_angle_congruent_mod_turn_witness :
  exists t,
    ErrorFunctions.closest_angle
      (mkTensor [2%nat] [0; 1]) (mkTensor [2%nat] [PI; 0]) = Ok t /\
    forall i x y,
      [0; 1] !! i = Some x -> [PI; 0] !! i = Some y ->
      exists k : Z, data t !! i = Some (y - x + IZR k * (2 * PI)).
Proof.
  apply (closest_angle_congruent_mod_turn
           (mkTensor [2%nat] [0; 1]) (mkTensor [2%nat] [PI; 0])).
  reflexivity.
Defined.

Lemma closest_angle_small_difference_witness :
  ErrorFunctions.closest_angle
    (mkTensor [2%nat] [0; 1]) (mkTensor [2%nat] [1; 0])
  = Ok (tmap2 (fun x y => y - x)
          (mkTensor [2%nat] [0; 1]) (mkTensor [2%nat] [1; 0])).
Proof.
  apply (closest_angle_small_difference
           (mkTensor [2%nat] [0; 1]) (mkTensor [2%nat] [1; 0]));
    [reflexivity|].
  pose proof PI2_1 as Hpi.
  intros [|[|i]] x y Hx Hy; simpl in Hx, Hy; try discriminate;
    injection Hx as <-; injection Hy as <-; lra.
Defined.

Lemma l2_error_shape_and_sign_witness :
  exists t,
    l2_error predicted targets = Ok t /\
    shape t = removelast (shape predicted) /\
    well_formed t /\
    Forall (fun x => 0 <= x) (data t).
Proof.
  apply (l2_error_shape_and_sign predicted targets); reflexivity.
Defined.

Lemma l2_error_of_equal_is_zero_witness :
  exists t,
    l2_error predicted predicted = Ok t /\
    shape t = removelast (shape predicted) /\
    Forall (fun x => x = 0) (data t).
Proof. apply (l2_error_of_equal_is_zero predicted). reflexivity. Defined.

Lemma l2_error_symmetric_witness :
  l2_error predicted targets = l2_error targets predicted.
Proof. apply (l2_error_symmetric predicted targets); reflexivity. Defined.

Lemma l2_error_translation_invariant_witness :
  l2_error (tmap2 Rplus predicted (mkTensor [2; 2]%nat [5; 5; 7; 7]))
    (tmap2 Rplus targets (mkTensor [2; 2]%nat [5; 5; 7; 7]))
  = l2_error predicted targets.
Proof.
  apply (l2_error_translation_invariant predicted targets
           (mkTensor [2; 2]%nat [5; 5; 7; 7]));
    reflexivity.
Defined.

Lemma cle_stop_error_survives_reset_witness :
  let st := mkStore reward_default (input_at 0 [7%Z]) in
  let self1 := st_self (snd (CLE_Reward.get_reward st)) in
  let self2 := snd (CLE_Reward.reset self1) in
  CLE_Reward.metric_set self2
    = snd (ms_reset (CLE_Reward.metric_set self1)) /\
  CLE_Reward.stop_error self2 = CLE_Reward.stop_error self1 /\
  CLE_Reward.stop_error self2 <> None /\
  cle_configuration self2 = cle_configuration (st_self st).
Proof.
  apply (cle_stop_error_survives_reset
           (mkStore reward_default (input_at 0 [7%Z]))
           (Float (py_max (- 15) (- 20) - 3.0 * Rabs (- 2)))).
  reflexivity.
Defined.

Lemma cle_get_reward_raising_keeps_stop_error_witness :
  let st := mkStore reward_without_yaw_metric (input_at 0 [7%Z]) in
  CLE_Reward.stop_error (st_self (snd (CLE_Reward.get_reward st)))
    = CLE_Reward.stop_error (st_self st).
Proof.
  apply (cle_get_reward_raising_keeps_stop_error
           (mkStore reward_without_yaw_metric (input_at 0 [7%Z]))
           (KeyError (KStr "yaw_error_ca"))).
  reflexivity.
Defined.


Lemma cle_get_reward_on_vectors_witness :
  let st := mkStore reward_default (input_at 0 [7%Z]) in
  CLE_Reward.get_reward st =
    (Ok (Float (Rmax (- 15) (- 20) - 3.0 * Rabs (- 2))),
     mkStore
       (CLE_Reward.set_stop_error 20
          (CLE_Reward.set_metric_set (mkReplay 1 {[ 7%Z := scene7 ]})
             reward_default))
       (input_at 0 [7%Z])).
Proof.
  apply (cle_get_reward_on_vectors
           (mkStore reward_default (input_at 0 [7%Z])) 7%Z
           (mkReplay 1 {[ 7%Z := scene7 ]}) scene7
           [0; 20; 4] [0; -2; 1] 20 (-2) 3.0);
    try reflexivity.
  simpl. lia.
Defined.

Lemma cle_get_reward_range_witness :
  let st := mkStore reward_default (input_at 0 [7%Z]) in
  exists r,
    fst (CLE_Reward.get_reward st) = Ok (Float r) /\
    r <= 0 /\
    (CLE_Reward.enable_clip (st_self st) = true ->
     - CLE_Reward.rew_clip_thresh (st_self st) - 3.0 * Rabs (- 2) <= r).
Proof.
  apply (cle_get_reward_range
           (mkStore reward_default (input_at 0 [7%Z])) 7%Z
           (mkReplay 1 {[ 7%Z := scene7 ]}) 20 (-2) 3.0);
    try reflexivity; simpl; lra.
Defined.

Lemma ole_get_reward_symmetric_witness :
  fst (OLE_Reward.get_reward
         (mkStore OLE_Reward.init_default open_loop_input))
  = fst (OLE_Reward.get_reward
           (mkStore OLE_Reward.init_default
              (mkRewardInput 0 [7%Z] tt ∅ ∅
                 {[ "positions" := targets ]}
                 {[ "target_positions" := predicted ]}
               : RewardInput unit unit))).
Proof.
  apply (ole_get_reward_symmetric _ _ predicted targets); reflexivity.
Defined.

Lemma ole_get_reward_broadcasts_target_row_witness :
  fst (OLE_Reward.get_reward
         (mkStore OLE_Reward.init_default
            (mkRewardInput 0 [7%Z] tt ∅ ∅
               {[ "positions" := predicted ]}
               {[ "target_positions" := mkTensor [2%nat] [1; 2] ]}
             : RewardInput unit unit)))
  = fst (OLE_Reward.get_reward
           (mkStore OLE_Reward.init_default
              (mkRewardInput 0 [7%Z] tt ∅ ∅
                 {[ "positions" := predicted ]}
                 {[ "target_positions" :=
                      mkTensor [2; 2]%nat [1; 2; 1; 2] ]}
               : RewardInput unit unit))).
Proof.
  apply (ole_get_reward_broadcasts_target_row _ _
           predicted (mkTensor [2%nat] [1; 2]) 2%nat 2%nat);
    reflexivity.
Defined.

Lemma aggregate_cle_metrics_aggregator_raises_witness :
  CleUtils.aggregate_cle_metrics failing_aggregator evaluated_world
    = (Raise (External "aggregate"), evaluated_world).
Proof.
  apply (aggregate_cle_metrics_aggregator_raises failing_aggregator
           evaluated_world (External "aggregate")).
  reflexivity.
Defined.

Lemma aggregate_cle_metrics_fails_after_reset_witness :
  CleUtils.aggregate_cle_metrics two_valued_aggregator evaluated_world
    = (Raise RuntimeError,
       CleUtils.mkWorld
         (ClosedLoopEvaluator.reset (CleUtils.cle_evaluator evaluated_world))
         (CleUtils.stdout evaluated_world)).
Proof.
  apply (aggregate_cle_metrics_fails_after_reset two_valued_aggregator
           evaluated_world [("scenes", mkTensor [2%nat] [1; 2])]);
    [reflexivity|].
  constructor. intros c. discriminate.
Defined.

Lemma aggregate_cle_metrics_twice_witness :
  (CleUtils.aggregate_cle_metrics count_scenes;;
   CleUtils.aggregate_cle_metrics count_scenes) evaluated_world
    = (Ok tt,
       CleUtils.mkWorld
         (ClosedLoopEvaluator.reset (CleUtils.cle_evaluator evaluated_world))
         (CleUtils.stdout evaluated_world
            ++ [CleUtils.mkPrettyTable ["metric"; "log_replayed agents"]
                  [[CleUtils.CStr "scenes"; CleUtils.CNum (INR 1)]];
                CleUtils.mkPrettyTable ["metric"; "log_replayed agents"]
                  [[CleUtils.CStr "scenes"; CleUtils.CNum (INR 0)]]])).
Proof.
  apply (aggregate_cle_metrics_twice count_scenes evaluated_world
           [("scenes", mkTensor [] [INR 1])]
           [[CleUtils.CStr "scenes"; CleUtils.CNum (INR 1)]]
           [("scenes", mkTensor [] [INR 0])]
           [[CleUtils.CStr "scenes"; CleUtils.CNum (INR 0)]]);
    try reflexivity;
    (constructor; [eexists; split; reflexivity | constructor]).
Defined.

Lemma get_frame_data_agents_table_aligned_witness :
  exists l c e a,
    Visualiser.get_frame_data tt origin_frame [car] [] = Ok (l, c, e, a) /\
    ((exists ex ey,
        e !! "x" = Some [Visualiser.VArray ex] /\
        e !! "y" = Some [Visualiser.VArray ey] /\
        length ex = 4%nat /\ length ey = 4%nat) /\
     Forall
       (fun k => exists column,
          a !! k = Some column /\ length column = length [car])
       ["x"; "y"; "id"; "name"; "p"; "color"]).
Proof.
  do 4 eexists. split; [reflexivity|].
  eapply (get_frame_data_agents_table_aligned tt origin_frame [car] []).
  reflexivity.
Defined.

Lemma get_frame_data_agent_rows_witness :
  exists l c e a,
    Visualiser.get_frame_data tt origin_frame [car] [] = Ok (l, c, e, a) /\
    exists xs ys ids names ps colours j name p,
      a !! "x" = Some xs /\ a !! "y" = Some ys /\ a !! "id" = Some ids /\
      a !! "name" = Some names /\ a !! "p" = Some ps /\
      a !! "color" = Some colours /\
      xs !! 0%nat
        = Some (Visualiser.VArray
                  (List.map fst (Visualiser.box_world_coords car))) /\
      ys !! 0%nat
        = Some (Visualiser.VArray
                  (List.map snd (Visualiser.box_world_coords car))) /\
      ids !! 0%nat = Some (Visualiser.VInt (Visualiser.track_id car)) /\
      Visualiser.PERCEPTION_LABELS !! j = Some name /\
      Visualiser.label_probabilities car !! j = Some p /\
      Forall (fun q => q <= p) (Visualiser.label_probabilities car) /\
      names !! 0%nat = Some (Visualiser.VStr name) /\
      ps !! 0%nat = Some (Visualiser.VNum p) /\
      colours !! 0%nat
        = Some (Visualiser.VStr (Visualiser.agent_colour name)).
Proof.
  do 4 eexists. split; [reflexivity|].
  eapply (get_frame_data_agent_rows tt origin_frame [car] []);
    reflexivity.
Defined.

Lemma get_frame_data_map_tables_witness :
  exists l c e a,
    Visualiser.get_frame_data tt origin_frame [car] ["light"]
      = Ok (l, c, e, a) /\
    ((([0%nat] : list nat) = [] -> l = ∅) /\
     (([0%nat] : list nat) <> [] ->
      Forall
        (fun k => exists column,
           l !! k = Some column /\ length column = length [0%nat])
        ["x"; "y"; "color"]) /\
     Forall
       (fun k => exists column,
          c !! k = Some column /\ length column = length (@nil nat))
       ["x"; "y"]).
Proof.
  do 4 eexists. split; [reflexivity|].
  exact (get_frame_data_map_tables tt origin_frame [car] ["light"]
           _ _ _ _ eq_refl).
Defined.

(** The lane of the small map under its active red light. *)
Lemma get_frame_data_lane_colours_witness :
  exists l c e a,
    Visualiser.get_frame_data tt origin_frame [car] ["light"]
      = Ok (l, c, e, a) /\
    l !! "color" = Some [Visualiser.VStr "#FF3300"] /\
    Forall
      (fun v => exists colour,
         v = Visualiser.VStr colour /\
         (colour = "gray" \/
          exists key, Visualiser.COLORS !! key = Some colour))
      [Visualiser.VStr "#FF3300"] /\
    ((forall ids active x,
        In x (Visualiser.intersection_order ids active) -> In x active) ->
     Visualiser.face_id
       (Visualiser.filter_tl_faces_by_status ["light"] "ACTIVE") = [] ->
     Forall (fun v => v = Visualiser.VStr "gray")
       [Visualiser.VStr "#FF3300"]).
Proof.
  do 4 eexists. split; [reflexivity|]. split; [reflexivity|].
  eapply (get_frame_data_lane_colours tt origin_frame [car] ["light"]);
    reflexivity.
Defined.

Lemma get_frame_trajectories_aligned_witness :
  exists traj_agents traj_ego,
    Visualiser.get_frame_trajectories [origin_frame] [tt] [42%Z] 0
      = Ok (traj_agents, traj_ego) /\
    ((exists x y,
        traj_ego !! "x" = Some [Visualiser.VArray x] /\
        traj_ego !! "y" = Some [Visualiser.VArray y] /\
        length x = length y) /\
     (([42%Z] : list Z) = [] -> traj_agents = ∅) /\
     (([42%Z] : list Z) <> [] ->
      exists xs ys,
        traj_agents !! "x" = Some (List.map Visualiser.VArray xs) /\
        traj_agents !! "y" = Some (List.map Visualiser.VArray ys) /\
        length xs = length [42%Z] /\
        Forall2 (fun x y => length x = length y) xs ys)).
Proof.
  do 2 eexists. split; [reflexivity|].
  eapply (get_frame_trajectories_aligned [origin_frame] [tt] [42%Z] 0).
  reflexivity.
Defined.

End MoreExamples.
